(** * Shocked client: connection manager, tracker registry and demo chat API

    A shallow embedding of [packages/client/src/createClient.js] and of
    [packages/demo/src/chat/server/api.js].

    The JavaScript closure state of [createClient] (the variables
    [trackers], [reconnectTimerHandle], [socket], [url]) becomes a record
    that every operation receives and returns.  The host environment the
    code talks to (the [WebSocket] objects it constructs, the [setTimeout]
    table, the event emitter, the console) is part of the same record, so
    that what the code does to it can be observed. *)

From Stdlib Require Import ZArith String List Lia.
From stdpp Require Import base list strings gmap.

Open Scope Z_scope.

(** ** JavaScript values used by both files *)

(** [throw new Error(msg)] and the [TypeError] the runtime raises. *)
Inductive Exn :=
| JsError (message : string)
| TypeError (message : string).

Inductive Completion (A : Type) :=
| Return (a : A)
| Throw (e : Exn).
Arguments Return {A} a.
Arguments Throw {A} e.

(** [s.startsWith(p)] *)
Definition startsWith (s p : string) : bool := String.prefix p s.

(** [s.substr(start)]: the string from index [start] to the end. *)
Fixpoint substr (s : string) (start : nat) : string :=
  match start, s with
  | O, _ => s
  | S n, String _ rest => substr rest n
  | S _, EmptyString => EmptyString
  end.

(** ** createClient.js *)

Module Client.

Definition RECONNECT_INTERVAL : Z := 2500.

Definition getHost (endpoint : string) : Completion string :=
  if startsWith endpoint "https:" || startsWith endpoint "http:" then
    Return ("ws" +:+ substr endpoint 4)
  else if startsWith endpoint "wss:" || startsWith endpoint "ws:" then
    Return endpoint
  else
    Throw (JsError ("Invalid endpoint " +:+ endpoint +:+
      ". It should start with one of http:, https:, ws: or wss:")).

(** *** The host environment *)

Inductive ReadyState := CONNECTING | OPEN | CLOSING | CLOSED.

#[global] Instance ReadyState_eq_dec : EqDecision ReadyState.
Proof. solve_decision. Defined.

(** Modelled from the spec: the encoder [PKT_TRACKER_TIMESTAMP] of
    [shocked-common] is not among the sources.  The one control frame is a
    timestamp response for a tracker identifier and a time in milliseconds;
    every other outbound frame is an opaque payload supplied by a tracker.
    The frame the encoder builds is kept symbolic. *)
Inductive Frame :=
| PKT_TRACKER_TIMESTAMP (trackerId : string) (time : Z)
| Payload (data : string).

(** A [WebSocket] object: the url it was constructed with, its ready state
    and what has been written to it with [send]. *)
Record WebSocket := {
  ws_url : string;
  readyState : ReadyState;
  ws_sent : list Frame
}.

(** Modelled from the spec: the parser of [shocked-common] is not among
    the sources.  A decoded frame is one of six kinds of event, one for each
    [parser.on...] callback that [createClient] installs, with the
    arguments of that callback. *)
Inductive ProtocolEvent :=
| TrackerOpen (trackerId : string)
| TrackerClose (trackerId : string) (code : Z) (message : string)
| TrackerAction (trackerId : string) (action : string) (serial : Z)
| TrackerApiResponse (trackerId : string) (apiId : Z) (status : bool)
    (response params : string)
| TrackerEmit (trackerId : string) (event data : string)
| TrackerTimestampRequest (trackerId : string).

(** Modelled from the spec: the class [TrackerClient] is not among the
    sources; a tracker is an opaque handler object.  These are the methods
    [createClient] calls on it, and a tracker object records the calls it
    receives. *)
Inductive TrackerCall :=
| onConnect
| onDisconnect
| onOpen (trackerId : string)
| onClose (code : Z) (message : string)
| onAction (action : string) (serial : Z)
| onApiResponse (apiId : Z) (status : bool) (response params : string)
| emit (event data : string).

(** A tracker object.  [createClient] reads two of its properties:
    [tracker.group] in [findTracker] and [tracker.trackerId] in
    [createTracker]; a property the object does not have reads as
    [undefined], which is [None] here. *)
Record Tracker := {
  group : option string;
  trackerId : option string;
  inbox : list TrackerCall
}.

(** [eventManager.emit('connect')] and [eventManager.emit('disconnect', code)].
    The listeners that [client.on] and [client.off] manage are application
    code; what is emitted is recorded. *)
Inductive Lifecycle :=
| connect_event
| disconnect_event (code : Z).

(** *** The closure state of [createClient]

    [socket] refers to a [WebSocket] object by its position in [sockets],
    the objects constructed so far in creation order; [None] is [null].
    [reconnectTimerHandle] is a handle returned by [setTimeout] ([None] is
    [null]; a handle is a positive integer or an object, so it is truthy).
    [timers] is the host's table of pending timeouts with their delays. *)
Record Client := {
  host : string;
  trackers : list Tracker;
  reconnectTimerHandle : option nat;
  socket : option nat;
  url : option string;
  sockets : list WebSocket;
  timers : list (nat * Z);
  next_timer : nat;
  emitted : list Lifecycle;
  warnings : list string
}.

Definition set_trackers (v : list Tracker) (c : Client) : Client :=
  {| host := host c; trackers := v;
     reconnectTimerHandle := reconnectTimerHandle c; socket := socket c;
     url := url c; sockets := sockets c; timers := timers c;
     next_timer := next_timer c; emitted := emitted c;
     warnings := warnings c |}.

Definition set_handle (v : option nat) (c : Client) : Client :=
  {| host := host c; trackers := trackers c;
     reconnectTimerHandle := v; socket := socket c;
     url := url c; sockets := sockets c; timers := timers c;
     next_timer := next_timer c; emitted := emitted c;
     warnings := warnings c |}.

Definition set_socket (v : option nat) (c : Client) : Client :=
  {| host := host c; trackers := trackers c;
     reconnectTimerHandle := reconnectTimerHandle c; socket := v;
     url := url c; sockets := sockets c; timers := timers c;
     next_timer := next_timer c; emitted := emitted c;
     warnings := warnings c |}.

Definition set_url (v : option string) (c : Client) : Client :=
  {| host := host c; trackers := trackers c;
     reconnectTimerHandle := reconnectTimerHandle c; socket := socket c;
     url := v; sockets := sockets c; timers := timers c;
     next_timer := next_timer c; emitted := emitted c;
     warnings := warnings c |}.

Definition set_sockets (v : list WebSocket) (c : Client) : Client :=
  {| host := host c; trackers := trackers c;
     reconnectTimerHandle := reconnectTimerHandle c; socket := socket c;
     url := url c; sockets := v; timers := timers c;
     next_timer := next_timer c; emitted := emitted c;
     warnings := warnings c |}.

Definition set_timers (v : list (nat * Z)) (n : nat) (c : Client) : Client :=
  {| host := host c; trackers := trackers c;
     reconnectTimerHandle := reconnectTimerHandle c; socket := socket c;
     url := url c; sockets := sockets c; timers := v;
     next_timer := n; emitted := emitted c;
     warnings := warnings c |}.

Definition set_emitted (v : list Lifecycle) (c : Client) : Client :=
  {| host := host c; trackers := trackers c;
     reconnectTimerHandle := reconnectTimerHandle c; socket := socket c;
     url := url c; sockets := sockets c; timers := timers c;
     next_timer := next_timer c; emitted := v;
     warnings := warnings c |}.

Definition set_warnings (v : list string) (c : Client) : Client :=
  {| host := host c; trackers := trackers c;
     reconnectTimerHandle := reconnectTimerHandle c; socket := socket c;
     url := url c; sockets := sockets c; timers := timers c;
     next_timer := next_timer c; emitted := emitted c;
     warnings := v |}.

(** **** Host primitives *)

(** [setTimeout(f, interval)]: a fresh handle, entered in the table. *)
Definition setTimeout (interval : Z) (c : Client) : nat * Client :=
  (next_timer c,
   set_timers (timers c ++ [(next_timer c, interval)]) (S (next_timer c)) c).

(** [clearTimeout(handle)] *)
Definition clearTimeout (handle : nat) (c : Client) : Client :=
  set_timers (List.filter (fun t => negb (Nat.eqb (fst t) handle)) (timers c))
             (next_timer c) c.

(** [new WebSocket(remoteUrl)]: a new object in the CONNECTING state. *)
Definition new_WebSocket (remoteUrl : string) (c : Client) : nat * Client :=
  (length (sockets c),
   set_sockets (sockets c ++
     [{| ws_url := remoteUrl; readyState := CONNECTING; ws_sent := [] |}]) c).

Definition with_readyState (r : ReadyState) (ws : WebSocket) : WebSocket :=
  {| ws_url := ws_url ws; readyState := r; ws_sent := ws_sent ws |}.

(** [sock.close()]: starts the closing handshake of a socket that is
    connecting or open, and does nothing to one closing or closed. *)
Definition ws_close (sid : nat) (c : Client) : Client :=
  set_sockets
    (alter (fun ws => match readyState ws with
                      | CONNECTING | OPEN => with_readyState CLOSING ws
                      | CLOSING | CLOSED => ws
                      end) sid (sockets c)) c.

(** [sock.send(data)] *)
Definition ws_send (sid : nat) (data : Frame) (c : Client) : Client :=
  set_sockets
    (alter (fun ws => {| ws_url := ws_url ws; readyState := readyState ws;
                         ws_sent := ws_sent ws ++ [data] |}) sid (sockets c)) c.

(** [socket.readyState === r] for a non-null [socket] *)
Definition readyState_is (r : ReadyState) (sid : nat) (c : Client) : bool :=
  match sockets c !! sid with
  | Some ws => bool_decide (readyState ws = r)
  | None => false
  end.

(** *** The functions of the closure *)

(** [arr.find(p)] returns a reference to the first element satisfying [p];
    an object in an array is referred to by its position. *)
Fixpoint find_ref {A : Type} (p : A -> bool) (l : list A) : option nat :=
  match l with
  | [] => None
  | x :: r => if p x then Some O else S <$> find_ref p r
  end.

Definition findTracker (id : string) (c : Client) : option nat :=
  find_ref (fun tracker => bool_decide (group tracker = Some id)) (trackers c).

Definition receive (call : TrackerCall) (t : Tracker) : Tracker :=
  {| group := group t; trackerId := trackerId t; inbox := inbox t ++ [call] |}.

(** [tracker.method(...)] on the tracker object referred to by [ref] *)
Definition invoke (ref : nat) (call : TrackerCall) (c : Client) : Client :=
  set_trackers (alter (receive call) ref (trackers c)) c.

(** [trackers.forEach(tracker => tracker.method())] *)
Definition forEach_tracker (call : TrackerCall) (c : Client) : Client :=
  set_trackers (map (receive call) (trackers c)) c.

Definition eventManager_emit (e : Lifecycle) (c : Client) : Client :=
  set_emitted (emitted c ++ [e]) c.

Definition console_warn (message : string) (c : Client) : Client :=
  set_warnings (warnings c ++ [message]) c.

Definition setupReconnection (interval : Z) (c : Client) : Client :=
  match reconnectTimerHandle c with
  | Some _ => c
  | None =>
      let '(handle, c1) := setTimeout interval c in
      set_handle (Some handle) c1
  end.

Definition clearRetry (c : Client) : Client :=
  match reconnectTimerHandle c with
  | Some handle => set_handle None (clearTimeout handle c)
  | None => c
  end.

(** [connection(remoteUrl)]; the handlers it attaches to the new socket are
    [sock_onerror], [sock_onopen], [sock_onclose] and [sock_onmessage]
    below.  None of them mentions [sock]: they read the closure variables
    only, so the handlers of all sockets are the same functions. *)
Definition connection (remoteUrl : option string) (c : Client)
  : option nat * Client :=
  match remoteUrl with
  | None => (None, c)
  | Some u => let '(sock, c1) := new_WebSocket u c in (Some sock, c1)
  end.

Definition sock_onerror (message : string) (c : Client) : Client :=
  console_warn message c.

Definition sock_onopen (c : Client) : Client :=
  eventManager_emit connect_event (forEach_tracker onConnect (clearRetry c)).

(** [socket === null || socket.readyState !== WebSocket.OPEN] *)
Definition socket_not_open (c : Client) : bool :=
  match socket c with
  | None => true
  | Some sid => negb (readyState_is OPEN sid c)
  end.

Definition sock_onclose (code : Z) (c : Client) : Client :=
  let c1 :=
    if negb (code =? 1000) && negb (code =? 1005) && negb (code =? 4001) then
      if socket_not_open c then setupReconnection RECONNECT_INTERVAL c else c
    else c in
  if socket_not_open c1 then
    eventManager_emit (disconnect_event code) (forEach_tracker onDisconnect c1)
  else c1.

(** [client.isConnected()]: [socket && socket.readyState === WebSocket.OPEN] *)
Definition isConnected (c : Client) : bool :=
  match socket c with
  | None => false
  | Some sid => readyState_is OPEN sid c
  end.

(** [socket.url === url] for a non-null [socket] *)
Definition socket_url_is (u : option string) (sid : nat) (c : Client) : bool :=
  match sockets c !! sid with
  | Some ws => bool_decide (Some (ws_url ws) = u)
  | None => false
  end.

Definition close_if_present (c : Client) : Client :=
  match socket c with
  | Some sid => ws_close sid c
  | None => c
  end.

Definition connect (path : string) (c : Client) : bool * Client :=
  let c1 := set_url (Some (host c +:+ "/" +:+ path)) c in
  if isConnected c1 &&
     match socket c1 with
     | Some sid => socket_url_is (url c1) sid c1
     | None => false
     end
  then (true, c1)
  else
    let c2 := close_if_present c1 in
    let '(sock, c3) := connection (url c2) c2 in
    (true, set_socket sock c3).

Definition clearPath (c : Client) : Client :=
  let c1 := set_url None c in
  match socket c1 with
  | Some sid => set_socket None (ws_close sid c1)
  | None => c1
  end.

Definition reconnect (c : Client) : bool * Client :=
  if match url c with None => true | Some _ => false end ||
     match socket c with
     | Some sid => readyState_is CONNECTING sid c
     | None => false
     end
  then (false, c)
  else
    let c1 := close_if_present c in
    let '(sock, c2) := connection (url c1) c1 in
    (true, set_socket sock c2).

Definition close (c : Client) : Client :=
  clearRetry (set_socket None (close_if_present c)).

Definition send (data : Frame) (c : Client) : Client :=
  if negb (isConnected c) then c
  else match socket c with
       | Some sid => ws_send sid data c
       | None => c
       end.

(** The parser callbacks. *)
Definition forward (id : string) (call : TrackerCall) (c : Client) : Client :=
  match findTracker id c with
  | Some tracker => invoke tracker call c
  | None => c
  end.

Definition onTrackerOpen (id : string) (c : Client) : Client :=
  forward id (onOpen id) c.

Definition onTrackerClose (id : string) (code : Z) (message : string)
  (c : Client) : Client :=
  forward id (onClose code message) c.

Definition onTrackerAction (id action : string) (serial : Z) (c : Client)
  : Client :=
  forward id (onAction action serial) c.

Definition onTrackerApiResponse (id : string) (apiId : Z) (status : bool)
  (response params : string) (c : Client) : Client :=
  forward id (onApiResponse apiId status response params) c.

Definition onTrackerEmit (id event data : string) (c : Client) : Client :=
  forward id (emit event data) c.

(** [now] is the value of [Date.now()] when the callback runs. *)
Definition onTrackerTimestamp (id : string) (now : Z) (c : Client) : Client :=
  send (PKT_TRACKER_TIMESTAMP id now) c.

(** [sock.onmessage]: [parser.parse(e.data)] decodes the frame and calls the
    callback of its kind. *)
Definition sock_onmessage (ev : ProtocolEvent) (now : Z) (c : Client) : Client :=
  match ev with
  | TrackerOpen id => onTrackerOpen id c
  | TrackerClose id code message => onTrackerClose id code message c
  | TrackerAction id action serial => onTrackerAction id action serial c
  | TrackerApiResponse id apiId status response params =>
      onTrackerApiResponse id apiId status response params c
  | TrackerEmit id event data => onTrackerEmit id event data c
  | TrackerTimestampRequest id => onTrackerTimestamp id now c
  end.

(** The callback passed to [setTimeout] in [setupReconnection]. *)
Definition reconnect_timer_callback (c : Client) : Client :=
  snd (reconnect (set_handle None c)).

(** The state [createClient] starts from, once [getHost] has returned. *)
Definition initial (h : string) : Client :=
  {| host := h; trackers := []; reconnectTimerHandle := None;
     socket := None; url := None; sockets := []; timers := [];
     next_timer := 1; emitted := []; warnings := [] |}.

Definition createClient (endpoint : string) : Completion Client :=
  match getHost endpoint with
  | Throw e => Throw e
  | Return h => Return (initial h)
  end.

(** *** The tracker registry *)

Section Registry.
(** [TrackerClient] is imported from another file: its constructor is a
    parameter, as are the types of the store and of the params it is
    given. *)
Context {Store Params : Type}.
Variable TrackerClient : Store -> string -> Params -> Tracker.

Definition createTracker (id : string) (store : Store) (params : Params)
  (c : Client) : Completion nat * Client :=
  match find_ref (fun tracker => bool_decide (trackerId tracker = Some id))
                 (trackers c) with
  | Some _ =>
      (Throw (JsError ("A tracker for " +:+ id +:+
         " already exists on the client. There can only be one tracker for one trackerId.")),
       c)
  | None =>
      (Return (length (trackers c)),
       set_trackers (trackers c ++ [TrackerClient store id params]) c)
  end.

(** The callback the constructor receives, which a tracker calls to
    leave the registry; [idx] is the value of [trackers.indexOf(tracker)]. *)
Definition tracker_dispose (idx : Z) (c : Client) : Client :=
  if 0 <=? idx then set_trackers (delete (Z.to_nat idx) (trackers c)) c
  else c.

(** *** Runs of a client

    What can happen to a client: the application calls a method, or the
    host delivers an event.  A socket opens once, from CONNECTING; it
    closes once; it delivers messages until it is closed (a browser stops
    at [close()], the [ws] package and React Native do not); a timeout
    fires once, while it is in the table. *)
Inductive HostEvent :=
| SocketOpen (sid : nat)
| SocketError (sid : nat) (message : string)
| SocketClose (sid : nat) (code : Z)
| SocketMessage (sid : nat) (ev : ProtocolEvent) (now : Z)
| TimerFired (handle : nat).

Inductive Action :=
| Connect (path : string)
| ClearPath
| Reconnect
| Close
| Send (data : Frame)
| CreateTracker (id : string) (store : Store) (params : Params)
| Dispose (idx : Z)
| Host (e : HostEvent).

Definition set_readyState (sid : nat) (r : ReadyState) (c : Client) : Client :=
  set_sockets (alter (with_readyState r) sid (sockets c)) c.

Definition pending (handle : nat) (c : Client) : bool :=
  existsb (fun t => Nat.eqb (fst t) handle) (timers c).

Definition deliver (e : HostEvent) (c : Client) : Client :=
  match e with
  | SocketOpen sid =>
      if readyState_is CONNECTING sid c
      then sock_onopen (set_readyState sid OPEN c)
      else c
  | SocketError sid message =>
      match sockets c !! sid with
      | Some _ => sock_onerror message c
      | None => c
      end
  | SocketClose sid code =>
      match sockets c !! sid with
      | Some ws =>
          if bool_decide (readyState ws = CLOSED) then c
          else sock_onclose code (set_readyState sid CLOSED c)
      | None => c
      end
  | SocketMessage sid ev now =>
      if readyState_is OPEN sid c || readyState_is CLOSING sid c
      then sock_onmessage ev now c
      else c
  | TimerFired handle =>
      (* the host drops the entry from its table and runs the callback *)
      if pending handle c
      then reconnect_timer_callback (clearTimeout handle c)
      else c
  end.

Definition step (a : Action) (c : Client) : Client :=
  match a with
  | Connect path => snd (connect path c)
  | ClearPath => clearPath c
  | Reconnect => snd (reconnect c)
  | Close => close c
  | Send data => send data c
  | CreateTracker id store params => snd (createTracker id store params c)
  | Dispose idx => tracker_dispose idx c
  | Host e => deliver e c
  end.

Definition run (acts : list Action) (c : Client) : Client :=
  fold_left (fun c a => step a c) acts c.

(** The states a client created by [createClient] can be in. *)
Inductive reachable : Client -> Prop :=
| reachable_created endpoint c :
    createClient endpoint = Return c -> reachable c
| reachable_step a c :
    reachable c -> reachable (step a c).

End Registry.

(** *** Invariants of the closure state *)

(** The handle variable and the host's table agree: no timeout is pending
    when the handle is [null], and otherwise the one the handle names is,
    with the delay [setupReconnection] is called with. *)
Definition timer_inv (c : Client) : Prop :=
  match reconnectTimerHandle c with
  | None => timers c = []
  | Some handle => timers c = [(handle, RECONNECT_INTERVAL)]
  end.

(** The current socket exists and was constructed with the current [url]. *)
Definition socket_inv (c : Client) : Prop :=
  forall sid, socket c = Some sid ->
    exists ws, sockets c !! sid = Some ws /\ url c = Some (ws_url ws).

(** A socket that is no longer the current one has been closed. *)
Definition stale_inv (c : Client) : Prop :=
  forall sid ws, sockets c !! sid = Some ws -> socket c <> Some sid ->
    readyState ws = CLOSING \/ readyState ws = CLOSED.

Definition closing_or_closed (ws : WebSocket) : Prop :=
  readyState ws = CLOSING \/ readyState ws = CLOSED.

(** [c'] has the current socket, the url and the socket objects of [c]. *)
Definition same_conn (c c' : Client) : Prop :=
  socket c' = socket c /\ url c' = url c /\ sockets c' = sockets c.

(** [c'] has the timer state of [c]. *)
Definition same_timers (c c' : Client) : Prop :=
  reconnectTimerHandle c' = reconnectTimerHandle c /\ timers c' = timers c.

(** A tracker object whose two identifying properties hold the identifier
    it is constructed with, for concrete runs. *)
Definition sample_TrackerClient (_ : unit) (id : string) (_ : unit) : Tracker :=
  {| group := Some id; trackerId := Some id; inbox := [] |}.

Definition sample_run (acts : list (@Action unit unit)) : Client :=
  run sample_TrackerClient acts (initial "ws://host").

Definition is_Connect {Store Params : Type} (a : @Action Store Params) : bool :=
  match a with
  | Connect _ => true
  | _ => false
  end.

End Client.

(** ** demo/src/chat/server/api.js *)

Module Chat.

Record User := { id : string; name : string }.

(** The result of a property read [ROOMS[room]]: the member array of an own
    property, a property inherited from [Object.prototype] ([ROOMS] is an
    object literal), or [undefined]. *)
Inductive Value :=
| Members (members : list User)
| Inherited (property : string)
| undefined.

(** The properties every object literal inherits. *)
Definition Object_prototype : list string :=
  ["constructor"; "__defineGetter__"; "__defineSetter__"; "hasOwnProperty";
   "__lookupGetter__"; "__lookupSetter__"; "isPrototypeOf";
   "propertyIsEnumerable"; "toString"; "valueOf"; "__proto__";
   "toLocaleString"].

(** Arrays (also empty ones), functions and objects are truthy. *)
Definition truthy (v : Value) : bool :=
  match v with
  | Members _ | Inherited _ => true
  | undefined => false
  end.

Inductive Message :=
| ADD_MEMBER (payload : User)
| MEMBERS (room : string) (members : list User).

(** The session object belongs to the server library, which is not among
    the sources: the calls [join] makes on it are recorded in order, and
    the two values it keeps for the API are fields of the state. *)
Inductive SessionCall :=
| channel_dispatch (room : string) (m : Message)
| subscribe (room : string)
| addCloseListener
| dispatch (m : Message).

(** The module-level table [ROOMS] (its own properties), the two session
    values the API reads and writes, the calls made on the session, and the
    console. *)
Record State := {
  ROOMS : gmap string (list User);
  session_user : option User;
  session_room : option string;
  calls : list SessionCall;
  console : list string
}.

Definition ROOMS_initial : gmap string (list User) :=
  <["python" := []]> (<["java" := []]> (<["javascript" := []]>
    (<["ruby" := []]> (<["php" := []]> ∅)))).

Definition ROOMS_get (room : string) (s : State) : Value :=
  match ROOMS s !! room with
  | Some members => Members members
  | None =>
      if bool_decide (room ∈ Object_prototype) then Inherited room
      else undefined
  end.

Definition getMembers (room : string) (s : State) : Completion Value :=
  let members := ROOMS_get room s in
  if negb (truthy members) then Throw (JsError ("Unknown room " +:+ room))
  else Return members.

Definition called (k : SessionCall) (s : State) : State :=
  {| ROOMS := ROOMS s; session_user := session_user s;
     session_room := session_room s; calls := calls s ++ [k];
     console := console s |}.

Definition console_log (line : string) (s : State) : State :=
  {| ROOMS := ROOMS s; session_user := session_user s;
     session_room := session_room s; calls := calls s;
     console := console s ++ [line] |}.

Definition set_ROOMS (v : gmap string (list User)) (s : State) : State :=
  {| ROOMS := v; session_user := session_user s;
     session_room := session_room s; calls := calls s;
     console := console s |}.

Definition session_set_room (room : string) (s : State) : State :=
  {| ROOMS := ROOMS s; session_user := session_user s;
     session_room := Some room; calls := calls s;
     console := console s |}.

(** [join(room)].  The array [members] and [ROOMS[room]] are one object,
    so the MEMBERS message carries the array after the push. *)
Definition join (room : string) (s : State) : Completion unit * State :=
  match session_user s with
  | None =>
      (Throw (TypeError "Cannot read properties of undefined (reading 'name')"), s)
  | Some user =>
      let s1 := console_log ("JOIN " +:+ room +:+ " " +:+ name user +:+ "/"
                             +:+ id user) s in
      match getMembers room s1 with
      | Throw e => (Throw e, s1)
      | Return _ =>
          let s2 := called (channel_dispatch room (ADD_MEMBER user)) s1 in
          let s3 := called (subscribe room) s2 in
          match ROOMS_get room s3 with
          | Members members =>
              let s4 := set_ROOMS (<[room := members ++ [user]]> (ROOMS s3)) s3 in
              let s5 := session_set_room room s4 in
              let s6 := called addCloseListener s5 in
              (Return tt,
               called (dispatch (MEMBERS room (members ++ [user]))) s6)
          | Inherited _ =>
              (Throw (TypeError "ROOMS[room].push is not a function"), s3)
          | undefined =>
              (Throw (TypeError "Cannot read properties of undefined (reading 'push')"), s3)
          end
      end
  end.

(** A session of a signed-in user before any room was joined. *)
Definition fresh_session (u : User) : State :=
  {| ROOMS := ROOMS_initial; session_user := Some u; session_room := None;
     calls := []; console := [] |}.

End Chat.

(** ** Auxiliary notions for further properties *)

Module ClientAux.
Import Client.

(** The identifier a decoded event addresses and the tracker method its
    parser callback calls; [None] for the timestamp request, which is
    answered and not forwarded. *)
Definition event_route (ev : ProtocolEvent) : option (string * TrackerCall) :=
  match ev with
  | TrackerOpen id => Some (id, onOpen id)
  | TrackerClose id code message => Some (id, onClose code message)
  | TrackerAction id action serial => Some (id, onAction action serial)
  | TrackerApiResponse id apiId status response params =>
      Some (id, onApiResponse apiId status response params)
  | TrackerEmit id event data => Some (id, emit event data)
  | TrackerTimestampRequest _ => None
  end.

(** The order in which a socket goes through its ready states. *)
Definition rank (r : ReadyState) : nat :=
  match r with
  | CONNECTING => 0
  | OPEN => 1
  | CLOSING => 2
  | CLOSED => 3
  end.

(** [ws'] is a later state of the socket object [ws]: the same url, a ready
    state that is not earlier, and the frames sent so far followed by the
    frames sent since. *)
Definition socket_evolves (ws ws' : WebSocket) : Prop :=
  ws_url ws' = ws_url ws /\
  (rank (readyState ws) <= rank (readyState ws'))%nat /\
  exists more, ws_sent ws' = ws_sent ws ++ more.

(** One step from the sockets [l] to the sockets [l']: every socket of [l]
    is in [l'] at its position in a later state, and is open if frames
    were written to it; the sockets of [l'] beyond [l] are connecting and
    have nothing sent. *)
Definition sockets_step (l l' : list WebSocket) : Prop :=
  (forall sid ws, l !! sid = Some ws ->
     exists ws', l' !! sid = Some ws' /\ socket_evolves ws ws' /\
                 (ws_sent ws' <> ws_sent ws -> readyState ws' = OPEN)) /\
  (forall sid ws', l' !! sid = Some ws' -> l !! sid = None ->
     readyState ws' = CONNECTING /\ ws_sent ws' = []).

(** [u] is the host [h], a slash and a path. *)
Definition targets (h u : string) : Prop :=
  exists path, u = h +:+ "/" +:+ path.

(** The client has host [h], and its stored url and the url of every
    socket it has constructed are [h], a slash and a path. *)
Definition target_inv (h : string) (c : Client) : Prop :=
  host c = h /\
  (forall u, url c = Some u -> targets h u) /\
  Forall (fun ws => targets h (ws_url ws)) (sockets c).

End ClientAux.

(** ** demo/src/chat/server/api.js: [leave] and [send]

    The session of [Chat] with the calls that [leave] and [send] make on
    it added to the log. *)

Module ChatRoom.

Inductive RoomMessage :=
| REMOVE_MEMBER (payload : string)
| MESSAGE (from message : string).

(** A call on the session: one that [join] makes, a dispatch on the channel
    of the room the session holds ([None] when [session.get('room')] is
    [undefined]), or an unsubscription. *)
Inductive Call :=
| of_join (k : Chat.SessionCall)
| channel_dispatch (room : option string) (m : RoomMessage)
| unsubscribe (room : option string).

Record State := {
  ROOMS : gmap string (list Chat.User);
  session_user : option Chat.User;
  session_room : option string;
  calls : list Call;
  console : list string
}.

(** The property key a value is converted to in [ROOMS[room]]. *)
Definition key (room : option string) : string :=
  match room with
  | Some r => r
  | None => "undefined"
  end.

Definition to_chat (s : State) : Chat.State :=
  {| Chat.ROOMS := ROOMS s; Chat.session_user := session_user s;
     Chat.session_room := session_room s; Chat.calls := [];
     Chat.console := console s |}.

(** [join] of [Chat], on a session whose log already holds calls. *)
Definition join (room : string) (s : State) : Completion unit * State :=
  let r := Chat.join room (to_chat s) in
  (fst r,
   {| ROOMS := Chat.ROOMS (snd r); session_user := Chat.session_user (snd r);
      session_room := Chat.session_room (snd r);
      calls := calls s ++ map of_join (Chat.calls (snd r));
      console := Chat.console (snd r) |}).

Definition called (k : Call) (s : State) : State :=
  {| ROOMS := ROOMS s; session_user := session_user s;
     session_room := session_room s; calls := calls s ++ [k];
     console := console s |}.

Definition set_ROOMS (v : gmap string (list Chat.User)) (s : State) : State :=
  {| ROOMS := v; session_user := session_user s;
     session_room := session_room s; calls := calls s;
     console := console s |}.

(** [leave()].  [session.channel(room)] is looked up before the message is
    built, so a missing user fails before anything is dispatched. *)
Definition leave (s : State) : Completion unit * State :=
  let room := session_room s in
  match session_user s with
  | None =>
      (Throw (TypeError "Cannot read properties of undefined (reading 'id')"), s)
  | Some user =>
      let s1 := called (channel_dispatch room (REMOVE_MEMBER (Chat.id user))) s in
      match Chat.ROOMS_get (key room) (to_chat s1) with
      | Chat.Members members =>
          let s2 :=
            set_ROOMS
              (<[key room :=
                   filter (fun u => Chat.id u <> Chat.id user) members]>
                 (ROOMS s1)) s1 in
          (Return tt, called (unsubscribe room) s2)
      | Chat.Inherited _ =>
          (Throw (TypeError "ROOMS[room].filter is not a function"), s1)
      | Chat.undefined =>
          (Throw (TypeError "Cannot read properties of undefined (reading 'filter')"), s1)
      end
  end.

(** [send(message)] *)
Definition send (message : string) (s : State) : Completion unit * State :=
  match session_user s with
  | None =>
      (Throw (TypeError "Cannot read properties of undefined (reading 'id')"), s)
  | Some user =>
      (Return tt,
       called (channel_dispatch (session_room s)
                 (MESSAGE (Chat.id user) message)) s)
  end.

(** A session of a signed-in user before any room was joined. *)
Definition fresh_session (u : Chat.User) : State :=
  {| ROOMS := Chat.ROOMS_initial; session_user := Some u;
     session_room := None; calls := []; console := [] |}.

End ChatRoom.

(** ** Properties of the client *)

Module ClientFacts.
Import Client.

(** *** Endpoint construction *)

Lemma startsWith_app (p rest : string) : startsWith (p +:+ rest) p = true.
Proof.
  unfold startsWith. induction p as [|a p IH]; simpl.
  - destruct rest; reflexivity.
  - destruct (Ascii.ascii_dec a a); [exact IH | congruence].
Qed.

(** C5: [getHost] rewrites [http:] to [ws:] and [https:] to [wss:], returns
    an address starting with [ws:] or [wss:] as it is, and throws for every
    other address, in which case [createClient] throws too. *)
Theorem getHost_rewrites_scheme :
  (forall rest, getHost ("http:" +:+ rest) = Return ("ws:" +:+ rest)) /\
  (forall rest, getHost ("https:" +:+ rest) = Return ("wss:" +:+ rest)) /\
  (forall rest, getHost ("ws:" +:+ rest) = Return ("ws:" +:+ rest)) /\
  (forall rest, getHost ("wss:" +:+ rest) = Return ("wss:" +:+ rest)) /\
  (forall endpoint,
      startsWith endpoint "http:" = false ->
      startsWith endpoint "https:" = false ->
      startsWith endpoint "ws:" = false ->
      startsWith endpoint "wss:" = false ->
      exists message,
        getHost endpoint = Throw (JsError message) /\
        createClient endpoint = Throw (JsError message)).
Proof.
  repeat split.
  - intros rest. unfold getHost.
    rewrite (startsWith_app "http:" rest), orb_true_r. reflexivity.
  - intros rest. unfold getHost.
    rewrite (startsWith_app "https:" rest). reflexivity.
  - intros rest. unfold getHost.
    rewrite (startsWith_app "ws:" rest), orb_true_r.
    destruct rest; reflexivity.
  - intros rest. unfold getHost.
    rewrite (startsWith_app "wss:" rest).
    destruct rest; reflexivity.
  - intros endpoint H1 H2 H3 H4. eexists.
    unfold createClient, getHost. rewrite H1, H2, H3, H4. simpl. split; reflexivity.
Qed.

Example getHost_https :
  getHost "https://example.com/api" = Return "wss://example.com/api".
Proof. reflexivity. Qed.

Example getHost_uppercase_scheme :
  getHost "HTTP://example.com" = Throw (JsError
    "Invalid endpoint HTTP://example.com. It should start with one of http:, https:, ws: or wss:").
Proof. reflexivity. Qed.

Lemma getHost_rewrites_scheme_witness :
  exists message,
    getHost "ftp://example.com" = Throw (JsError message) /\
    createClient "ftp://example.com" = Throw (JsError message).
Proof.
  apply (proj2 (proj2 (proj2 (proj2 getHost_rewrites_scheme))));
    reflexivity.
Defined.

(** *** The reconnect timer *)

Ltac open_client c :=
  destruct c as [c_host c_trackers c_handle c_socket c_url c_sockets
                 c_timers c_next c_emitted c_warnings]; simpl in *.

Lemma same_timers_refl c : same_timers c c.
Proof. split; reflexivity. Qed.

Lemma same_timers_inv c c' : same_timers c c' -> timer_inv c -> timer_inv c'.
Proof. intros [Hh Ht]. unfold timer_inv. rewrite Hh, Ht. trivial. Qed.

Lemma connection_timers u c : same_timers c (snd (connection u c)).
Proof. destruct u; split; reflexivity. Qed.

Lemma close_if_present_timers c : same_timers c (close_if_present c).
Proof. unfold close_if_present. destruct (socket c); split; reflexivity. Qed.

Lemma connect_timers path c : same_timers c (snd (connect path c)).
Proof.
  unfold connect.
  destruct (isConnected _ && _); [split; reflexivity|].
  unfold close_if_present, connection. simpl.
  destruct (socket c); split; reflexivity.
Qed.

Lemma clearPath_timers c : same_timers c (clearPath c).
Proof. unfold clearPath. simpl. destruct (socket c); split; reflexivity. Qed.

Lemma reconnect_timers c : same_timers c (snd (reconnect c)).
Proof.
  unfold reconnect.
  destruct (_ || _); [split; reflexivity|].
  unfold close_if_present, connection. open_client c.
  destruct c_socket, c_url; split; reflexivity.
Qed.

Lemma send_timers data c : same_timers c (send data c).
Proof.
  unfold send. destruct (negb _); [split; reflexivity|].
  destruct (socket c); split; reflexivity.
Qed.

Lemma forward_timers id call c : same_timers c (forward id call c).
Proof. unfold forward. destruct (findTracker id c); split; reflexivity. Qed.

Lemma sock_onmessage_timers ev now c : same_timers c (sock_onmessage ev now c).
Proof.
  destruct ev; simpl;
    solve [apply forward_timers | apply send_timers].
Qed.

Lemma timer_inv_setupReconnection c :
  timer_inv c -> timer_inv (setupReconnection RECONNECT_INTERVAL c).
Proof.
  unfold setupReconnection, timer_inv.
  destruct (reconnectTimerHandle c) eqn:Hh; simpl.
  - rewrite Hh. trivial.
  - intros ->. reflexivity.
Qed.

Lemma clearRetry_clears c :
  timer_inv c ->
  reconnectTimerHandle (clearRetry c) = None /\ timers (clearRetry c) = [].
Proof.
  unfold clearRetry, timer_inv.
  destruct (reconnectTimerHandle c) eqn:Hh; simpl.
  - intros ->. simpl. rewrite Nat.eqb_refl. split; reflexivity.
  - rewrite Hh. intros ->. split; reflexivity.
Qed.

Lemma sock_onopen_clears c :
  timer_inv c ->
  reconnectTimerHandle (sock_onopen c) = None /\ timers (sock_onopen c) = [].
Proof. intros H. unfold sock_onopen. simpl. apply clearRetry_clears, H. Qed.

Lemma close_clears c :
  timer_inv c ->
  reconnectTimerHandle (close c) = None /\ timers (close c) = [].
Proof.
  intros H. unfold close. apply clearRetry_clears.
  eapply same_timers_inv; [|exact H].
  unfold close_if_present. destruct (socket c); split; reflexivity.
Qed.

Lemma timer_inv_cleared c :
  reconnectTimerHandle c = None /\ timers c = [] -> timer_inv c.
Proof. intros [Hh Ht]. unfold timer_inv. rewrite Hh. exact Ht. Qed.

Lemma timer_inv_sock_onclose code c :
  timer_inv c -> timer_inv (sock_onclose code c).
Proof.
  intros H. unfold sock_onclose. cbv zeta.
  assert (Hnotify : forall c1, timer_inv c1 ->
    timer_inv (if socket_not_open c1
               then eventManager_emit (disconnect_event code)
                      (forEach_tracker onDisconnect c1)
               else c1)).
  { intros c1 H1. destruct (socket_not_open c1); [|exact H1].
    eapply same_timers_inv; [|exact H1]. split; reflexivity. }
  apply Hnotify.
  destruct (_ && _); [|exact H].
  destruct (socket_not_open c); [|exact H].
  apply timer_inv_setupReconnection, H.
Qed.

Lemma timer_fired_clears handle c :
  timer_inv c -> pending handle c = true ->
  reconnectTimerHandle c = Some handle /\
  reconnectTimerHandle (reconnect_timer_callback (clearTimeout handle c)) = None /\
  timers (reconnect_timer_callback (clearTimeout handle c)) = [].
Proof.
  unfold timer_inv, pending. intros H Hp.
  destruct (reconnectTimerHandle c) as [h|] eqn:Hh.
  - rewrite H in Hp. simpl in Hp. rewrite orb_false_r in Hp.
    apply Nat.eqb_eq in Hp. subst h. split; [reflexivity|].
    unfold reconnect_timer_callback.
    destruct (reconnect_timers (set_handle None (clearTimeout handle c)))
      as [E1 E2].
    rewrite E1, E2. simpl. rewrite H. simpl. rewrite Nat.eqb_refl.
    split; reflexivity.
  - rewrite H in Hp. discriminate.
Qed.

Section TimerInvariant.
Context {Store Params : Type}.
Variable TrackerClient : Store -> string -> Params -> Tracker.

Lemma createTracker_timers id store params c :
  same_timers c (snd (createTracker TrackerClient id store params c)).
Proof. unfold createTracker. destruct (find_ref _ _); split; reflexivity. Qed.

Lemma timer_inv_deliver e c : timer_inv c -> timer_inv (deliver e c).
Proof.
  intros H. destruct e as [sid|sid m|sid code|sid ev now|handle]; simpl.
  - destruct (readyState_is CONNECTING sid c); [|exact H].
    apply timer_inv_cleared, sock_onopen_clears.
    eapply same_timers_inv; [|exact H]. split; reflexivity.
  - destruct (sockets c !! sid); [|exact H].
    eapply same_timers_inv; [|exact H]. split; reflexivity.
  - destruct (sockets c !! sid); [|exact H].
    destruct (bool_decide _); [exact H|].
    apply timer_inv_sock_onclose.
    eapply same_timers_inv; [|exact H]. split; reflexivity.
  - destruct (_ || _); [|exact H].
    eapply same_timers_inv; [apply sock_onmessage_timers|exact H].
  - destruct (pending handle c) eqn:Hp; [|exact H].
    apply timer_inv_cleared. eapply timer_fired_clears; eassumption.
Qed.

Lemma timer_inv_step a c :
  timer_inv c -> timer_inv (step TrackerClient a c).
Proof.
  intros H. destruct a; simpl.
  - eapply same_timers_inv; [apply connect_timers|exact H].
  - eapply same_timers_inv; [apply clearPath_timers|exact H].
  - eapply same_timers_inv; [apply reconnect_timers|exact H].
  - apply timer_inv_cleared, close_clears, H.
  - eapply same_timers_inv; [apply send_timers|exact H].
  - eapply same_timers_inv; [apply createTracker_timers|exact H].
  - eapply same_timers_inv; [|exact H].
    unfold tracker_dispose. destruct (0 <=? idx); split; reflexivity.
  - apply timer_inv_deliver, H.
Qed.

Lemma reachable_timer_inv c : reachable TrackerClient c -> timer_inv c.
Proof.
  induction 1 as [endpoint c Hc|a c _ IH].
  - unfold createClient in Hc. destruct (getHost endpoint); [|discriminate].
    injection Hc as <-. reflexivity.
  - apply timer_inv_step, IH.
Qed.

End TimerInvariant.

(** *** The current socket and the superseded ones *)

Lemma same_conn_inv c c' :
  same_conn c c' -> socket_inv c /\ stale_inv c -> socket_inv c' /\ stale_inv c'.
Proof.
  intros (Hs & Hu & Hss) [H1 H2]. unfold socket_inv, stale_inv.
  rewrite Hs, Hu, Hss. split; assumption.
Qed.

Lemma closed_after_close c :
  stale_inv c ->
  forall sid ws, sockets (close_if_present c) !! sid = Some ws ->
    closing_or_closed ws.
Proof.
  intros Hs sid ws. unfold close_if_present, closing_or_closed.
  destruct (socket c) as [cur|] eqn:Hc.
  - simpl. destruct (decide (cur = sid)) as [->|Hne].
    + rewrite list_lookup_alter_eq.
      destruct (sockets c !! sid) as [ws0|]; simpl; [|discriminate].
      intros [= <-]. destruct (readyState ws0) eqn:E; simpl; auto.
    + rewrite list_lookup_alter_ne by done. intros Hl.
      apply (Hs sid ws Hl). rewrite Hc. congruence.
  - intros Hl. apply (Hs sid ws Hl). rewrite Hc. discriminate.
Qed.

Lemma new_current_inv c0 u c' :
  (forall sid ws, sockets c0 !! sid = Some ws -> closing_or_closed ws) ->
  socket c' = Some (length (sockets c0)) ->
  sockets c' = sockets c0 ++
    [{| ws_url := u; readyState := CONNECTING; ws_sent := [] |}] ->
  url c' = Some u ->
  socket_inv c' /\ stale_inv c'.
Proof.
  intros Hall Hs Hss Hu. split.
  - intros sid. rewrite Hs, Hss, Hu. intros [= <-].
    eexists. split; [apply list_lookup_middle; reflexivity|reflexivity].
  - intros sid ws. rewrite Hs, Hss. intros Hl Hne.
    apply lookup_snoc_Some in Hl as [[_ Hl]|[-> _]]; [|congruence].
    apply (Hall sid ws Hl).
Qed.

Lemma no_current_inv c0 c' :
  (forall sid ws, sockets c0 !! sid = Some ws -> closing_or_closed ws) ->
  socket c' = None -> sockets c' = sockets c0 ->
  socket_inv c' /\ stale_inv c'.
Proof.
  intros Hall Hs Hss. split.
  - intros sid. rewrite Hs. discriminate.
  - intros sid ws. rewrite Hss. intros Hl _. apply (Hall sid ws Hl).
Qed.

Lemma conn_inv_connect path c :
  socket_inv c /\ stale_inv c ->
  socket_inv (snd (connect path c)) /\ stale_inv (snd (connect path c)).
Proof.
  intros [H1 H2]. unfold connect.
  destruct (isConnected _ && _) eqn:Hsame.
  - simpl. apply andb_true_iff in Hsame as [_ Hsame]. simpl in Hsame.
    split.
    + intros sid Hs. simpl in *. rewrite Hs in Hsame.
      unfold socket_url_is in Hsame. simpl in Hsame.
      destruct (sockets c !! sid) as [ws|]; [|discriminate].
      apply bool_decide_eq_true in Hsame. eauto.
    + exact H2.
  - set (u := host c +:+ "/" +:+ path).
    apply (new_current_inv (close_if_present (set_url (Some u) c)) u).
    + apply closed_after_close. exact H2.
    + subst u. open_client c. destruct c_socket; reflexivity.
    + subst u. open_client c. destruct c_socket; reflexivity.
    + subst u. open_client c. destruct c_socket; reflexivity.
Qed.

Lemma conn_inv_reconnect c :
  socket_inv c /\ stale_inv c ->
  socket_inv (snd (reconnect c)) /\ stale_inv (snd (reconnect c)).
Proof.
  intros [H1 H2]. unfold reconnect.
  destruct (_ || _) eqn:Hskip; [split; assumption|].
  apply orb_false_iff in Hskip as [Hu _].
  destruct (url c) as [u|] eqn:Hurl; [|discriminate].
  apply (new_current_inv (close_if_present c) u).
  - apply closed_after_close. exact H2.
  - open_client c. subst c_url. destruct c_socket; reflexivity.
  - open_client c. subst c_url. destruct c_socket; reflexivity.
  - open_client c. subst c_url. destruct c_socket; reflexivity.
Qed.

Lemma conn_inv_clearPath c :
  socket_inv c /\ stale_inv c ->
  socket_inv (clearPath c) /\ stale_inv (clearPath c).
Proof.
  intros [H1 H2].
  apply (no_current_inv (close_if_present c)).
  - apply closed_after_close. exact H2.
  - open_client c. destruct c_socket; reflexivity.
  - open_client c. destruct c_socket; reflexivity.
Qed.

Lemma conn_inv_close c :
  socket_inv c /\ stale_inv c -> socket_inv (close c) /\ stale_inv (close c).
Proof.
  intros [H1 H2].
  apply (no_current_inv (close_if_present c)).
  - apply closed_after_close. exact H2.
  - open_client c. destruct c_socket, c_handle; reflexivity.
  - open_client c. destruct c_socket, c_handle; reflexivity.
Qed.

(** Changing the ready state or the sent frames of a socket keeps its url. *)
Lemma conn_inv_alter f sid c :
  (forall ws, ws_url (f ws) = ws_url ws) ->
  (forall ws, socket c <> Some sid -> closing_or_closed ws ->
              closing_or_closed (f ws)) ->
  socket_inv c /\ stale_inv c ->
  socket_inv (set_sockets (alter f sid (sockets c)) c) /\
  stale_inv (set_sockets (alter f sid (sockets c)) c).
Proof.
  intros Furl Fclosed [H1 H2]. split.
  - intros cur Hc. simpl in *. destruct (H1 cur Hc) as (ws & Hl & Hu).
    destruct (decide (sid = cur)) as [->|Hne].
    + exists (f ws). rewrite list_lookup_alter_eq, Hl, Furl. auto.
    + exists ws. rewrite list_lookup_alter_ne by done. auto.
  - intros sid' ws. simpl. intros Hl Hne.
    destruct (decide (sid = sid')) as [->|Hne'].
    + rewrite list_lookup_alter_eq in Hl.
      destruct (sockets c !! sid') as [ws0|] eqn:Hl0; [|discriminate].
      injection Hl as <-. apply Fclosed; [exact Hne|]. apply (H2 sid' ws0 Hl0 Hne).
    + rewrite list_lookup_alter_ne in Hl by done. apply (H2 sid' ws Hl Hne).
Qed.

Lemma conn_inv_send data c :
  socket_inv c /\ stale_inv c -> socket_inv (send data c) /\ stale_inv (send data c).
Proof.
  intros H. unfold send. destruct (negb _); [exact H|].
  destruct (socket c); [|exact H].
  apply conn_inv_alter; [reflexivity| |exact H]. intros ws _ Hws. exact Hws.
Qed.

Lemma forward_conn id call c : same_conn c (forward id call c).
Proof.
  unfold forward. destruct (findTracker id c); repeat split; reflexivity.
Qed.

Lemma conn_inv_sock_onmessage ev now c :
  socket_inv c /\ stale_inv c ->
  socket_inv (sock_onmessage ev now c) /\ stale_inv (sock_onmessage ev now c).
Proof.
  intros H. destruct ev; simpl;
    solve [eapply same_conn_inv; [apply forward_conn|exact H]
          |apply conn_inv_send, H].
Qed.

Lemma sock_onopen_conn c : same_conn c (sock_onopen c).
Proof.
  unfold sock_onopen, clearRetry.
  destruct (reconnectTimerHandle c); repeat split; reflexivity.
Qed.

Lemma setupReconnection_conn interval c :
  same_conn c (setupReconnection interval c).
Proof.
  unfold setupReconnection.
  destruct (reconnectTimerHandle c); repeat split; reflexivity.
Qed.

Lemma sock_onclose_conn code c : same_conn c (sock_onclose code c).
Proof.
  unfold sock_onclose. cbv zeta.
  assert (Hnotify : forall c1, same_conn c c1 ->
    same_conn c (if socket_not_open c1
                 then eventManager_emit (disconnect_event code)
                        (forEach_tracker onDisconnect c1)
                 else c1)).
  { intros c1 H1. destruct (socket_not_open c1); exact H1. }
  apply Hnotify.
  destruct (_ && _); [|repeat split; reflexivity].
  destruct (socket_not_open c); [|repeat split; reflexivity].
  apply setupReconnection_conn.
Qed.

(** A socket that is still connecting is the current one. *)
Lemma connecting_is_current sid c :
  stale_inv c -> readyState_is CONNECTING sid c = true -> socket c = Some sid.
Proof.
  intros H2. unfold readyState_is.
  destruct (sockets c !! sid) as [ws|] eqn:Hl; [|discriminate].
  intros Hr. apply bool_decide_eq_true in Hr.
  destruct (decide (socket c = Some sid)) as [|Hne]; [assumption|].
  destruct (H2 sid ws Hl Hne); congruence.
Qed.

Section ConnectionInvariant.
Context {Store Params : Type}.
Variable TrackerClient : Store -> string -> Params -> Tracker.

Lemma conn_inv_deliver e c :
  socket_inv c /\ stale_inv c ->
  socket_inv (deliver e c) /\ stale_inv (deliver e c).
Proof.
  intros H. destruct e as [sid|sid m|sid code|sid ev now|handle]; simpl.
  - destruct (readyState_is CONNECTING sid c) eqn:Hr; [|exact H].
    eapply same_conn_inv; [apply sock_onopen_conn|].
    apply conn_inv_alter; [reflexivity| |exact H].
    intros ws Hne _. destruct Hne.
    apply connecting_is_current; [apply H|exact Hr].
  - destruct (sockets c !! sid); [|exact H].
    eapply same_conn_inv; [|exact H]. repeat split; reflexivity.
  - destruct (sockets c !! sid); [|exact H].
    destruct (bool_decide _); [exact H|].
    eapply same_conn_inv; [apply sock_onclose_conn|].
    apply conn_inv_alter; [reflexivity| |exact H].
    intros ws _ _. right. reflexivity.
  - destruct (_ || _); [|exact H].
    apply conn_inv_sock_onmessage, H.
  - destruct (pending handle c); [|exact H].
    unfold reconnect_timer_callback. apply conn_inv_reconnect.
    eapply same_conn_inv; [|exact H]. repeat split; reflexivity.
Qed.

Lemma conn_inv_step a c :
  socket_inv c /\ stale_inv c ->
  socket_inv (step TrackerClient a c) /\ stale_inv (step TrackerClient a c).
Proof.
  intros H. destruct a; simpl.
  - apply conn_inv_connect, H.
  - apply conn_inv_clearPath, H.
  - apply conn_inv_reconnect, H.
  - apply conn_inv_close, H.
  - apply conn_inv_send, H.
  - eapply same_conn_inv; [|exact H].
    unfold createTracker. destruct (find_ref _ _); repeat split; reflexivity.
  - eapply same_conn_inv; [|exact H].
    unfold tracker_dispose. destruct (0 <=? idx); repeat split; reflexivity.
  - apply conn_inv_deliver, H.
Qed.

Lemma reachable_conn_inv c :
  reachable TrackerClient c -> socket_inv c /\ stale_inv c.
Proof.
  induction 1 as [endpoint c Hc|a c _ IH].
  - unfold createClient in Hc. destruct (getHost endpoint); [|discriminate].
    injection Hc as <-. split.
    + intros sid. discriminate.
    + intros sid ws. simpl. rewrite lookup_nil. discriminate.
  - apply conn_inv_step, IH.
Qed.

End ConnectionInvariant.

(** *** Runs from a created client *)

Lemma reachable_run {Store Params : Type}
  (TrackerClient : Store -> string -> Params -> Tracker) acts c :
  reachable TrackerClient c -> reachable TrackerClient (run TrackerClient acts c).
Proof.
  revert c. induction acts as [|a acts IH]; intros c H; simpl; [exact H|].
  apply IH. apply reachable_step, H.
Qed.

Lemma reachable_sample_run acts : reachable sample_TrackerClient (sample_run acts).
Proof.
  apply reachable_run. apply (reachable_created _ "ws://host"). reflexivity.
Qed.

(** *** The close handler *)

Lemma socket_not_open_same_conn c c' :
  same_conn c c' -> socket_not_open c' = socket_not_open c.
Proof.
  intros (Hs & _ & Hss). unfold socket_not_open, readyState_is.
  rewrite Hs, Hss. reflexivity.
Qed.

Lemma sock_onclose_open code c :
  socket_not_open c = false -> sock_onclose code c = c.
Proof.
  intros H. unfold sock_onclose. rewrite H.
  destruct (_ && _); rewrite H; reflexivity.
Qed.

Lemma sock_onclose_not_open code c :
  socket_not_open c = true ->
  sock_onclose code c =
  eventManager_emit (disconnect_event code)
    (forEach_tracker onDisconnect
       (if negb (code =? 1000) && negb (code =? 1005) && negb (code =? 4001)
        then setupReconnection RECONNECT_INTERVAL c else c)).
Proof.
  intros H. unfold sock_onclose. rewrite H.
  destruct (_ && _).
  - rewrite (socket_not_open_same_conn c) by apply setupReconnection_conn.
    rewrite H. reflexivity.
  - rewrite H. reflexivity.
Qed.

Lemma setupReconnection_armed interval c :
  exists handle, reconnectTimerHandle (setupReconnection interval c) = Some handle.
Proof.
  unfold setupReconnection.
  destruct (reconnectTimerHandle c) as [h|] eqn:Hh; simpl; eauto.
Qed.

Lemma retry_code_dec code :
  code <> 1000 -> code <> 1005 -> code <> 4001 ->
  negb (code =? 1000) && negb (code =? 1005) && negb (code =? 4001) = true.
Proof.
  intros H1 H2 H3.
  apply Z.eqb_neq in H1, H2, H3. rewrite H1, H2, H3. reflexivity.
Qed.

Lemma terminal_code_dec code :
  code = 1000 \/ code = 1005 \/ code = 4001 ->
  negb (code =? 1000) && negb (code =? 1005) && negb (code =? 4001) = false.
Proof. intros [->|[->| ->]]; reflexivity. Qed.

Lemma socket_not_open_closed_current sid c :
  socket c = Some sid ->
  socket_not_open (set_readyState sid CLOSED c) = true.
Proof.
  intros Hs. unfold socket_not_open, readyState_is. simpl. rewrite Hs.
  rewrite list_lookup_alter_eq.
  destruct (sockets c !! sid); reflexivity.
Qed.

Lemma socket_not_open_closed_other sid c :
  socket c <> Some sid ->
  socket_not_open (set_readyState sid CLOSED c) = negb (isConnected c).
Proof.
  intros Hs. unfold socket_not_open, isConnected, readyState_is. simpl.
  destruct (socket c) as [cur|]; [|reflexivity].
  rewrite list_lookup_alter_ne by congruence. reflexivity.
Qed.

(** C1, as the code has it: a socket that is no longer the current one
    never runs its open handler; its close handler changes nothing but the
    socket's own ready state while the client is connected; while the
    client is not connected (the current socket is absent or not open) the
    close handler notifies every tracker and emits [disconnect], whichever
    socket closed. *)
Theorem superseded_socket_callbacks {Store Params : Type}
  (TrackerClient : Store -> string -> Params -> Tracker) c sid :
  reachable TrackerClient c ->
  socket c <> Some sid ->
  deliver (SocketOpen sid) c = c /\
  (isConnected c = true ->
   forall code,
     deliver (SocketClose sid code) c = c \/
     deliver (SocketClose sid code) c = set_readyState sid CLOSED c) /\
  (isConnected c = false ->
   forall code ws, sockets c !! sid = Some ws -> readyState ws <> CLOSED ->
     emitted (deliver (SocketClose sid code) c)
       = emitted c ++ [disconnect_event code] /\
     trackers (deliver (SocketClose sid code) c)
       = map (receive onDisconnect) (trackers c)).
Proof.
  intros Hreach Hstale.
  destruct (reachable_conn_inv TrackerClient c Hreach) as [_ Hinv].
  split; [|split].
  - simpl. destruct (readyState_is CONNECTING sid c) eqn:Hr; [|reflexivity].
    destruct Hstale. apply connecting_is_current; assumption.
  - intros Hopen code. simpl.
    destruct (sockets c !! sid) as [ws|]; [|left; reflexivity].
    destruct (bool_decide _); [left; reflexivity|]. right.
    apply sock_onclose_open.
    rewrite socket_not_open_closed_other, Hopen by assumption. reflexivity.
  - intros Hopen code ws Hl Hr. simpl. rewrite Hl.
    rewrite bool_decide_eq_false_2 by assumption.
    rewrite sock_onclose_not_open
      by (rewrite socket_not_open_closed_other, Hopen by assumption; reflexivity).
    simpl. destruct (_ && _); split; try reflexivity.
    + unfold setupReconnection. simpl.
      destruct (reconnectTimerHandle c); reflexivity.
    + unfold setupReconnection. simpl.
      destruct (reconnectTimerHandle c); reflexivity.
Qed.

Lemma superseded_socket_callbacks_witness :
  (let c := sample_run [Connect "/app"; Host (SocketOpen 0);
                        Connect "/other"; Host (SocketOpen 1)] in
   deliver (SocketOpen 0) c = c /\
   (deliver (SocketClose 0 1006) c = c \/
    deliver (SocketClose 0 1006) c = set_readyState 0 CLOSED c)) /\
  (let c := sample_run [Connect "/app"; Host (SocketOpen 0);
                        Connect "/other"] in
   emitted (deliver (SocketClose 0 1006) c)
     = emitted c ++ [disconnect_event 1006] /\
   trackers (deliver (SocketClose 0 1006) c)
     = map (receive onDisconnect) (trackers c)).
Proof.
  split.
  - pose proof (superseded_socket_callbacks sample_TrackerClient
      (sample_run [Connect "/app"; Host (SocketOpen 0);
                   Connect "/other"; Host (SocketOpen 1)]) 0%nat
      (reachable_sample_run _)) as H.
    destruct H as (Hopen & Hclose & _); [vm_compute; discriminate|].
    split; [exact Hopen|]. apply Hclose. reflexivity.
  - pose proof (superseded_socket_callbacks sample_TrackerClient
      (sample_run [Connect "/app"; Host (SocketOpen 0); Connect "/other"])
      0%nat (reachable_sample_run _)) as H.
    destruct H as (_ & _ & Hclose); [vm_compute; discriminate|].
    eapply Hclose; [reflexivity|reflexivity|vm_compute; discriminate].
Defined.

(** The first socket of two successive [connect] calls closes while the
    second is still connecting: its close handler arms the reconnect timer
    and emits [disconnect]. *)
Lemma superseded_close_is_processed :
  let c := sample_run [Connect "/app"; Connect "/other"] in
  let c' := deliver (SocketClose 0 1006) c in
  socket c = Some 1%nat /\
  reconnectTimerHandle c = None /\ timers c = [] /\ emitted c = [] /\
  reconnectTimerHandle c' = Some 1%nat /\
  timers c' = [(1%nat, 2500)] /\
  emitted c' = [disconnect_event 1006].
Proof. vm_compute. repeat split. Qed.

(** *** Close codes and the reconnect timer *)

(** C2: when the current socket closes with code 1000, 1005 or 4001 the
    timer state is left as it was; with any other code exactly one timeout
    is pending afterwards, with a delay of 2500 ms, and it is gone once it
    has fired or once [clearRetry] has run, so that it cannot fire again. *)
Theorem close_code_retry_policy {Store Params : Type}
  (TrackerClient : Store -> string -> Params -> Tracker) c sid ws code :
  reachable TrackerClient c ->
  socket c = Some sid ->
  sockets c !! sid = Some ws ->
  readyState ws <> CLOSED ->
  let c' := deliver (SocketClose sid code) c in
  (code = 1000 \/ code = 1005 \/ code = 4001 -> same_timers c c') /\
  (code <> 1000 -> code <> 1005 -> code <> 4001 ->
   exists handle,
     reconnectTimerHandle c' = Some handle /\
     timers c' = [(handle, 2500)] /\
     RECONNECT_INTERVAL = 2500 /\
     timers (deliver (TimerFired handle) c') = [] /\
     pending handle (deliver (TimerFired handle) c') = false /\
     timers (clearRetry c') = [] /\
     pending handle (clearRetry c') = false).
Proof.
  intros Hreach Hs Hl Hr c'.
  assert (Hc' : c' = sock_onclose code (set_readyState sid CLOSED c)).
  { subst c'. simpl. rewrite Hl.
    rewrite bool_decide_eq_false_2 by assumption. reflexivity. }
  assert (Hinv' : timer_inv c').
  { unfold c'. apply timer_inv_deliver.
    apply (reachable_timer_inv TrackerClient), Hreach. }
  rewrite sock_onclose_not_open in Hc'
    by (apply socket_not_open_closed_current; assumption).
  split.
  - intros Hcode. rewrite terminal_code_dec in Hc' by assumption.
    rewrite Hc'. split; reflexivity.
  - intros H1 H2 H3. rewrite retry_code_dec in Hc' by assumption.
    destruct (setupReconnection_armed RECONNECT_INTERVAL
                (set_readyState sid CLOSED c)) as [handle Hh].
    assert (Hh' : reconnectTimerHandle c' = Some handle)
      by (rewrite Hc'; exact Hh).
    assert (Ht' : timers c' = [(handle, 2500)]).
    { unfold timer_inv in Hinv'. rewrite Hh' in Hinv'. exact Hinv'. }
    exists handle. split; [exact Hh'|]. split; [exact Ht'|].
    split; [reflexivity|].
    assert (Hp : pending handle c' = true).
    { unfold pending. rewrite Ht'. simpl. rewrite Nat.eqb_refl. reflexivity. }
    destruct (timer_fired_clears handle c' Hinv' Hp) as (_ & _ & Hfired).
    destruct (clearRetry_clears c' Hinv') as [_ Hcleared].
    simpl. rewrite Hp. unfold pending. rewrite Hfired, Hcleared.
    repeat split; reflexivity.
Qed.

Lemma close_code_retry_policy_witness :
  let c := sample_run [Connect "/app"; Host (SocketOpen 0)] in
  (same_timers c (deliver (SocketClose 0 1000) c)) /\
  (exists handle,
     let c' := deliver (SocketClose 0 1006) c in
     reconnectTimerHandle c' = Some handle /\
     timers c' = [(handle, 2500)] /\
     RECONNECT_INTERVAL = 2500 /\
     timers (deliver (TimerFired handle) c') = [] /\
     pending handle (deliver (TimerFired handle) c') = false /\
     timers (clearRetry c') = [] /\
     pending handle (clearRetry c') = false).
Proof.
  split.
  - eapply (close_code_retry_policy sample_TrackerClient
              (sample_run [Connect "/app"; Host (SocketOpen 0)]) 0%nat _ 1000).
    + apply reachable_sample_run.
    + reflexivity.
    + reflexivity.
    + simpl. discriminate.
    + left. reflexivity.
  - eapply (close_code_retry_policy sample_TrackerClient
              (sample_run [Connect "/app"; Host (SocketOpen 0)]) 0%nat _ 1006).
    + apply reachable_sample_run.
    + reflexivity.
    + reflexivity.
    + simpl. discriminate.
    + lia.
    + lia.
    + lia.
Defined.

(** C3, as the code has it: in every state a client can reach at most one
    timeout is pending, the one [reconnectTimerHandle] names; scheduling
    while one is pending changes nothing; a socket that opens and an
    explicit [close()] leave no timeout pending; an explicit [reconnect()]
    leaves the timer state as it was. *)
Theorem reconnect_timer_discipline {Store Params : Type}
  (TrackerClient : Store -> string -> Params -> Tracker) c :
  reachable TrackerClient c ->
  (length (timers c) <= 1)%nat /\
  timer_inv c /\
  (reconnectTimerHandle c <> None ->
   forall interval, setupReconnection interval c = c) /\
  (forall sid, readyState_is CONNECTING sid c = true ->
     reconnectTimerHandle (deliver (SocketOpen sid) c) = None /\
     timers (deliver (SocketOpen sid) c) = []) /\
  (reconnectTimerHandle (close c) = None /\ timers (close c) = []) /\
  same_timers c (snd (reconnect c)).
Proof.
  intros Hreach.
  pose proof (reachable_timer_inv TrackerClient c Hreach) as Hinv.
  repeat apply conj.
  - unfold timer_inv in Hinv.
    destruct (reconnectTimerHandle c); rewrite Hinv; simpl; lia.
  - exact Hinv.
  - intros Hh interval. unfold setupReconnection.
    destruct (reconnectTimerHandle c); [reflexivity|congruence].
  - intros sid Hr. simpl. rewrite Hr.
    apply sock_onopen_clears.
    eapply same_timers_inv; [|exact Hinv]. split; reflexivity.
  - apply close_clears, Hinv.
  - apply close_clears, Hinv.
  - apply reconnect_timers.
  - apply reconnect_timers.
Qed.

Lemma reconnect_timer_discipline_witness :
  let c := sample_run [Connect "/app"; Host (SocketClose 0 1006)] in
  (length (timers c) <= 1)%nat /\
  timer_inv c /\
  (reconnectTimerHandle c <> None ->
   forall interval, setupReconnection interval c = c) /\
  (forall sid, readyState_is CONNECTING sid c = true ->
     reconnectTimerHandle (deliver (SocketOpen sid) c) = None /\
     timers (deliver (SocketOpen sid) c) = []) /\
  (reconnectTimerHandle (close c) = None /\ timers (close c) = []) /\
  same_timers c (snd (reconnect c)).
Proof.
  apply (reconnect_timer_discipline sample_TrackerClient).
  apply reachable_sample_run.
Defined.

(** After a failed connection has armed the timer, an explicit
    [reconnect()] opens a new socket and the timeout is still pending. *)
Lemma reconnect_keeps_pending_timer :
  let c := sample_run [Connect "/app"; Host (SocketClose 0 1006)] in
  reconnectTimerHandle c = Some 1%nat /\
  timers c = [(1%nat, 2500)] /\
  fst (reconnect c) = true /\
  socket (snd (reconnect c)) = Some 1%nat /\
  reconnectTimerHandle (snd (reconnect c)) = Some 1%nat /\
  timers (snd (reconnect c)) = [(1%nat, 2500)].
Proof. vm_compute. repeat split. Qed.

(** *** connect *)




(** *** The tracker registry *)

Lemma find_ref_elem {A : Type} (p : A -> bool) (l : list A) (x : A) :
  x ∈ l -> p x = true -> exists i, find_ref p l = Some i.
Proof.
  induction 1 as [x l|x y l _ IH]; intros Hp; simpl.
  - rewrite Hp. eauto.
  - destruct (p y); [eauto|]. destruct (IH Hp) as [i ->]. simpl. eauto.
Qed.

Lemma createTracker_taken {Store Params : Type}
  (TrackerClient : Store -> string -> Params -> Tracker)
  (id : string) (store : Store) (params : Params) c t :
  t ∈ trackers c ->
  trackerId t = Some id ->
  exists message,
    createTracker TrackerClient id store params c = (Throw (JsError message), c).
Proof.
  intros Ht Hid.
  destruct (find_ref_elem
              (fun tracker => bool_decide (trackerId tracker = Some id))
              (trackers c) t Ht) as [i Hi].
  { apply bool_decide_eq_true_2, Hid. }
  unfold createTracker. rewrite Hi. eauto.
Qed.



(** When the constructor stores the identifier it is given in the
    [trackerId] property, a second [createTracker] with the identifier of
    a successful first one throws. *)
Lemma createTracker_twice {Store Params : Type}
  (TrackerClient : Store -> string -> Params -> Tracker)
  (id : string) (store store' : Store) (params params' : Params) c ref :
  (forall s i p, trackerId (TrackerClient s i p) = Some i) ->
  fst (createTracker TrackerClient id store params c) = Return ref ->
  exists message,
    fst (createTracker TrackerClient id store' params'
           (snd (createTracker TrackerClient id store params c)))
    = Throw (JsError message).
Proof.
  intros Hctor Hfirst.
  destruct (createTracker_taken TrackerClient id store' params'
              (snd (createTracker TrackerClient id store params c))
              (TrackerClient store id params)) as [message Hr].
  - unfold createTracker in *.
    destruct (find_ref _ (trackers c)); [discriminate|]. simpl.
    apply elem_of_app. right. apply list_elem_of_here.
  - apply Hctor.
  - rewrite Hr. eauto.
Qed.

(** C9: a [TrackerEmit] event whose identifier [findTracker] does not find
    is dropped: the handler returns normally and the client, with every
    registered tracker, is as it was. *)
Theorem emit_unregistered_dropped id event data now c :
  findTracker id c = None ->
  sock_onmessage (TrackerEmit id event data) now c = c /\
  onTrackerEmit id event data c = c /\
  forall sid, deliver (SocketMessage sid (TrackerEmit id event data) now) c = c.
Proof.
  intros Hf.
  assert (H : onTrackerEmit id event data c = c).
  { unfold onTrackerEmit, forward. rewrite Hf. reflexivity. }
  repeat split; [exact H|exact H|].
  intros sid. simpl. rewrite H. destruct (_ || _); reflexivity.
Qed.

Lemma emit_unregistered_dropped_witness :
  let c := sample_run [CreateTracker "room" tt tt; Connect "/app";
                       Host (SocketOpen 0)] in
  sock_onmessage (TrackerEmit "lobby" "typing" "{}") 7 c = c /\
  onTrackerEmit "lobby" "typing" "{}" c = c /\
  forall sid,
    deliver (SocketMessage sid (TrackerEmit "lobby" "typing" "{}") 7) c = c.
Proof.
  apply emit_unregistered_dropped. reflexivity.
Defined.

(** *** The timestamp request *)

Lemma list_alter_lookup_insert {A : Type} (f : A -> A) (l : list A) i x :
  l !! i = Some x -> alter f i l = <[i := f x]> l.
Proof.
  revert i. induction l as [|y l IH]; intros [|i]; simpl; try discriminate.
  - intros [= ->]. reflexivity.
  - intros H. f_equal. apply IH, H.
Qed.

(** C7, as the code has it: a timestamp request is never forwarded to a
    tracker; when the client is connected exactly one frame, the timestamp
    response for the identifier with the time read, is written to the
    current socket and nothing else changes; when the client is not
    connected nothing is sent and nothing changes. *)
Theorem timestamp_request_reply id now c :
  let c' := sock_onmessage (TrackerTimestampRequest id) now c in
  trackers c' = trackers c /\
  (isConnected c = true ->
   exists sid ws,
     socket c = Some sid /\ sockets c !! sid = Some ws /\
     readyState ws = OPEN /\
     c' = set_sockets
            (<[sid := {| ws_url := ws_url ws; readyState := readyState ws;
                         ws_sent := ws_sent ws ++ [PKT_TRACKER_TIMESTAMP id now] |}]>
               (sockets c)) c) /\
  (isConnected c = false -> c' = c).
Proof.
  simpl. unfold onTrackerTimestamp, send. repeat apply conj.
  - destruct (negb _); [reflexivity|]. destruct (socket c); reflexivity.
  - intros Hc. rewrite Hc. simpl. unfold isConnected, readyState_is in Hc.
    destruct (socket c) as [sid|]; [|discriminate].
    destruct (sockets c !! sid) as [ws|] eqn:Hl; [|discriminate].
    apply bool_decide_eq_true in Hc.
    exists sid, ws. repeat split; try assumption.
    unfold ws_send. erewrite list_alter_lookup_insert by eassumption.
    reflexivity.
  - intros Hc. rewrite Hc. reflexivity.
Qed.

Lemma timestamp_request_reply_witness :
  let c := sample_run [Connect "/app"; Host (SocketOpen 0)] in
  exists sid ws,
    socket c = Some sid /\ sockets c !! sid = Some ws /\
    readyState ws = OPEN /\
    sock_onmessage (TrackerTimestampRequest "T") 42 c =
    set_sockets
      (<[sid := {| ws_url := ws_url ws; readyState := readyState ws;
                   ws_sent := ws_sent ws ++ [PKT_TRACKER_TIMESTAMP "T" 42] |}]>
         (sockets c)) c.
Proof.
  apply (timestamp_request_reply "T" 42
           (sample_run [Connect "/app"; Host (SocketOpen 0)])).
  reflexivity.
Defined.

(** A request that arrives on a socket that [reconnect()] has just closed,
    while the new socket is still connecting, gets no response. *)
Lemma timestamp_request_unanswered :
  let c := sample_run [Connect "/app"; Host (SocketOpen 0); Reconnect] in
  let c' := deliver (SocketMessage 0 (TrackerTimestampRequest "T") 42) c in
  readyState_is CLOSING 0 c = true /\
  socket c = Some 1%nat /\
  readyState_is CONNECTING 1 c = true /\
  c' = c /\
  map ws_sent (sockets c') = [[]; []].
Proof. vm_compute. repeat split. Qed.

(** *** clearPath *)

Section Idle.
Context {Store Params : Type}.
Variable TrackerClient : Store -> string -> Params -> Tracker.

Lemma idle_deliver e c :
  url c = None -> socket c = None ->
  url (deliver e c) = None /\ socket (deliver e c) = None /\
  length (sockets (deliver e c)) = length (sockets c).
Proof.
  intros Hu Hs.
  destruct e as [sid|sid m|sid code|sid ev now|handle]; simpl.
  - destruct (readyState_is CONNECTING sid c); [|auto].
    destruct (sock_onopen_conn (set_readyState sid OPEN c)) as (A & B & C).
    rewrite A, B, C. simpl. rewrite length_alter. auto.
  - destruct (sockets c !! sid); auto.
  - destruct (sockets c !! sid); [|auto].
    destruct (bool_decide _); [auto|].
    destruct (sock_onclose_conn code (set_readyState sid CLOSED c))
      as (A & B & C).
    rewrite A, B, C. simpl. rewrite length_alter. auto.
  - destruct (_ || _); [|auto].
    assert (Hsend : forall data, send data c = c).
    { intros data. unfold send, isConnected. rewrite Hs. reflexivity. }
    destruct ev; simpl;
      unfold onTrackerOpen, onTrackerClose, onTrackerAction,
        onTrackerApiResponse, onTrackerEmit, onTrackerTimestamp;
      first
        [ rewrite Hsend; solve [auto]
        | match goal with
          | |- context [forward ?i ?k c] =>
              destruct (forward_conn i k c) as (A & B & C)
          end; rewrite A, B, C; solve [auto] ].
  - destruct (pending handle c); [|auto].
    unfold reconnect_timer_callback, reconnect. simpl. rewrite Hu. auto.
Qed.

Lemma idle_step a c :
  url c = None -> socket c = None -> is_Connect a = false ->
  url (step TrackerClient a c) = None /\
  socket (step TrackerClient a c) = None /\
  length (sockets (step TrackerClient a c)) = length (sockets c).
Proof.
  intros Hu Hs Ha. destruct a; simpl; try discriminate.
  - unfold clearPath. simpl. rewrite Hs. auto.
  - unfold reconnect. rewrite Hu. auto.
  - unfold close, close_if_present, clearRetry. rewrite Hs. simpl.
    destruct (reconnectTimerHandle c); auto.
  - unfold send, isConnected. rewrite Hs. auto.
  - unfold createTracker. destruct (find_ref _ _); auto.
  - unfold tracker_dispose. destruct (0 <=? idx); auto.
  - apply idle_deliver; assumption.
Qed.

Lemma idle_run acts c :
  url c = None -> socket c = None ->
  Forall (fun a => is_Connect a = false) acts ->
  url (run TrackerClient acts c) = None /\
  socket (run TrackerClient acts c) = None /\
  length (sockets (run TrackerClient acts c)) = length (sockets c).
Proof.
  intros Hu Hs Hacts. revert c Hu Hs.
  induction Hacts as [|a acts Ha _ IH]; intros c Hu Hs; simpl; [auto|].
  destruct (idle_step a c Hu Hs Ha) as (Hu' & Hs' & Hl').
  destruct (IH _ Hu' Hs') as (Hu'' & Hs'' & Hl'').
  rewrite Hu'', Hs'', Hl'', Hl'. auto.
Qed.

End Idle.

(** C8, as the code has it: [clearPath()] clears the path, closes the
    current socket if there is one and forgets it; it leaves the timer
    state as it was; and whatever happens afterwards, short of a call of
    [connect], the path and the current socket stay [null] and no socket is
    constructed: a timeout that fires then finds no path to reconnect to. *)
Theorem clearPath_idle_no_reconnect {Store Params : Type}
  (TrackerClient : Store -> string -> Params -> Tracker) c acts :
  Forall (fun a => is_Connect a = false) acts ->
  let c' := clearPath c in
  url c' = None /\ socket c' = None /\
  sockets c' = sockets (close_if_present c) /\
  (forall sid ws', socket c = Some sid -> sockets c' !! sid = Some ws' ->
     closing_or_closed ws') /\
  same_timers c c' /\
  url (run TrackerClient acts c') = None /\
  socket (run TrackerClient acts c') = None /\
  length (sockets (run TrackerClient acts c')) = length (sockets c).
Proof.
  intros Hacts c'.
  assert (Hu : url c' = None).
  { unfold c', clearPath. simpl. destruct (socket c); reflexivity. }
  assert (Hs : socket c' = None).
  { unfold c', clearPath. simpl. destruct (socket c) eqn:E; [reflexivity|exact E]. }
  assert (Hss : sockets c' = sockets (close_if_present c)).
  { unfold c', clearPath, close_if_present. simpl.
    destruct (socket c); reflexivity. }
  split; [exact Hu|]. split; [exact Hs|]. split; [exact Hss|].
  split.
  { intros sid ws' Hc. rewrite Hss. unfold close_if_present. rewrite Hc.
    simpl. rewrite list_lookup_alter_eq.
    destruct (sockets c !! sid) as [ws|]; simpl; [|discriminate].
    intros [= <-]. unfold closing_or_closed.
    destruct (readyState ws) eqn:E; simpl; auto. }
  split; [apply clearPath_timers|].
  destruct (idle_run TrackerClient acts c' Hu Hs Hacts) as (A & B & C).
  rewrite A, B, C, Hss. unfold close_if_present.
  destruct (socket c); simpl; [rewrite length_alter|]; auto.
Qed.

Lemma clearPath_idle_no_reconnect_witness :
  let c := sample_run [Connect "/app"; Host (SocketClose 0 1006)] in
  let acts := [Host (TimerFired 1); Reconnect] in
  let c' := clearPath c in
  url c' = None /\ socket c' = None /\
  sockets c' = sockets (close_if_present c) /\
  (forall sid ws', socket c = Some sid -> sockets c' !! sid = Some ws' ->
     closing_or_closed ws') /\
  same_timers c c' /\
  url (run sample_TrackerClient acts c') = None /\
  socket (run sample_TrackerClient acts c') = None /\
  length (sockets (run sample_TrackerClient acts c')) = length (sockets c).
Proof.
  apply (clearPath_idle_no_reconnect sample_TrackerClient).
  repeat constructor.
Defined.

(** A timeout armed before [clearPath()] is still pending after it, and a
    socket that [clearPath()] closed while it was connecting arms one when
    its close handler runs. *)
Lemma clearPath_leaves_retry_armed :
  (let c := sample_run [Connect "/app"; Host (SocketClose 0 1006)] in
   reconnectTimerHandle (clearPath c) = Some 1%nat /\
   timers (clearPath c) = [(1%nat, 2500)]) /\
  (let c := sample_run [Connect "/app"; ClearPath] in
   reconnectTimerHandle c = None /\ timers c = [] /\
   reconnectTimerHandle (deliver (SocketClose 0 1006) c) = Some 1%nat /\
   timers (deliver (SocketClose 0 1006) c) = [(1%nat, 2500)]).
Proof. vm_compute. repeat split. Qed.

End ClientFacts.

(** ** Properties of the chat API *)

Module ChatFacts.
Import Chat.

(** A room name that reads as [undefined] from [ROOMS] is rejected before
    anything is done with the session or the table. *)
Lemma join_unknown_room_atomic room s user :
  session_user s = Some user ->
  ROOMS_get room s = undefined ->
  exists s',
    join room s = (Throw (JsError ("Unknown room " +:+ room)), s') /\
    ROOMS s' = ROOMS s /\ session_user s' = session_user s /\
    session_room s' = session_room s /\ calls s' = calls s.
Proof.
  intros Hu Hget. unfold join, getMembers. rewrite Hu.
  assert (Hget' : forall line, ROOMS_get room (console_log line s) = undefined)
    by (intros line; exact Hget).
  rewrite Hget'. simpl. eexists. repeat split; try reflexivity. exact Hu.
Qed.

(** C10 at a room name that is not a key of [ROOMS] but a property every
    object inherits: [getMembers] returns, [join] dispatches to the channel
    and subscribes the session, and then fails with a [TypeError]. *)
Theorem join_inherited_property_not_rejected :
  let user := {| id := "7"; name := "ann" |} in
  let s := fresh_session user in
  ROOMS s !! "constructor" = None /\
  getMembers "constructor" s = Return (Inherited "constructor") /\
  fst (join "constructor" s)
    = Throw (TypeError "ROOMS[room].push is not a function") /\
  calls s = [] /\
  calls (snd (join "constructor" s))
    = [channel_dispatch "constructor" (ADD_MEMBER user);
       subscribe "constructor"].
Proof. vm_compute. repeat split. Qed.

Example join_unknown_room_golang :
  join "golang" (fresh_session {| id := "7"; name := "ann" |})
  = (Throw (JsError "Unknown room golang"),
     console_log "JOIN golang ann/7"
       (fresh_session {| id := "7"; name := "ann" |})).
Proof. vm_compute. reflexivity. Qed.

Example join_python :
  let user := {| id := "7"; name := "ann" |} in
  let r := join "python" (fresh_session user) in
  fst r = Return tt /\
  ROOMS (snd r) !! "python" = Some [user] /\
  session_room (snd r) = Some "python" /\
  calls (snd r) =
    [channel_dispatch "python" (ADD_MEMBER user); subscribe "python";
     addCloseListener; dispatch (MEMBERS "python" [user])].
Proof. vm_compute. repeat split. Qed.

End ChatFacts.

(** ** Further properties of the client *)

Module ClientMore.
Import Client ClientFacts.

(** *** Sockets *)

(** X1: in every state a client can reach, a socket that is connecting or
    open is the current socket; so at most one socket is connecting or open
    at any time. *)
Theorem live_socket_is_current {Store Params : Type}
  (TrackerClient : Store -> string -> Params -> Tracker) c sid ws :
  reachable TrackerClient c ->
  sockets c !! sid = Some ws ->
  readyState ws = CONNECTING \/ readyState ws = OPEN ->
  socket c = Some sid /\
  forall sid' ws', sockets c !! sid' = Some ws' ->
    readyState ws' = CONNECTING \/ readyState ws' = OPEN -> sid' = sid.
Proof.
  intros Hreach Hl Hlive.
  destruct (reachable_conn_inv TrackerClient c Hreach) as [_ Hstale].
  assert (Hcur : forall s w, sockets c !! s = Some w ->
            readyState w = CONNECTING \/ readyState w = OPEN ->
            socket c = Some s).
  { intros s w Hs Hw.
    destruct (decide (socket c = Some s)) as [|Hne]; [assumption|].
    destruct (Hstale s w Hs Hne) as [E|E]; destruct Hw as [E'|E']; congruence. }
  split; [eapply Hcur; eassumption|].
  intros sid' ws' Hl' Hlive'.
  pose proof (Hcur sid ws Hl Hlive) as H1.
  pose proof (Hcur sid' ws' Hl' Hlive') as H2. congruence.
Qed.

Lemma live_socket_is_current_witness :
  let c := sample_run [Connect "/app"; Host (SocketOpen 0); Reconnect;
                       Connect "/other"] in
  socket c = Some 2%nat /\
  forall sid' ws', sockets c !! sid' = Some ws' ->
    readyState ws' = CONNECTING \/ readyState ws' = OPEN -> sid' = 2%nat.
Proof.
  eapply (live_socket_is_current sample_TrackerClient).
  - apply reachable_sample_run.
  - reflexivity.
  - left. reflexivity.
Defined.

Lemma isConnected_lookup c :
  isConnected c = true ->
  exists sid ws, socket c = Some sid /\ sockets c !! sid = Some ws /\
                 readyState ws = OPEN.
Proof.
  unfold isConnected, readyState_is.
  destruct (socket c) as [sid|]; [|discriminate].
  destruct (sockets c !! sid) as [ws|] eqn:Hl; [|discriminate].
  intros H. apply bool_decide_eq_true in H. eauto.
Qed.

(** What [close_if_present] followed by [connection] and the assignment to
    [socket] produce, in [connect] and in [reconnect]. *)
Lemma replaced_socket c u :
  let c' := set_socket (fst (connection (Some u) (close_if_present c)))
                       (snd (connection (Some u) (close_if_present c))) in
  socket c' = Some (length (sockets c)) /\
  sockets c' = sockets (close_if_present c) ++
    [{| ws_url := u; readyState := CONNECTING; ws_sent := [] |}] /\
  length (sockets c') = S (length (sockets c)) /\
  url c' = url c /\ host c' = host c /\ trackers c' = trackers c /\
  emitted c' = emitted c /\ warnings c' = warnings c /\ same_timers c c'.
Proof.
  open_client c. unfold close_if_present, same_timers.
  destruct c_socket; simpl; rewrite ?length_app, ?length_alter; simpl;
    repeat split; try reflexivity; lia.
Qed.

Lemma closed_current_after_close c sid ws' :
  socket c = Some sid ->
  sockets (close_if_present c) !! sid = Some ws' ->
  closing_or_closed ws'.
Proof.
  intros Hs. unfold close_if_present. rewrite Hs. simpl.
  rewrite list_lookup_alter_eq.
  destruct (sockets c !! sid) as [ws|]; simpl; [|discriminate].
  intros [= <-]. unfold closing_or_closed.
  destruct (readyState ws) eqn:E; simpl; auto.
Qed.

(** X2: [connect(path)] always returns [true] and stores the resolved
    target as the url.  Unless the client is already open on that target,
    the socket that was current is left closing or closed, exactly one
    socket is constructed, for the resolved target and in the CONNECTING
    state, and it becomes the current socket; trackers, emitted events and
    the reconnect timer are untouched. *)
Theorem connect_opens_target {Store Params : Type}
  (TrackerClient : Store -> string -> Params -> Tracker) path c :
  reachable TrackerClient c ->
  let target := host c +:+ "/" +:+ path in
  let c' := snd (connect path c) in
  fst (connect path c) = true /\
  url c' = Some target /\
  host c' = host c /\ trackers c' = trackers c /\ emitted c' = emitted c /\
  same_timers c c' /\
  ((isConnected c = true /\
    (exists sid ws, socket c = Some sid /\ sockets c !! sid = Some ws /\
                    ws_url ws = target) /\
    c' = set_url (Some target) c)
   \/
   (socket c' = Some (length (sockets c)) /\
    length (sockets c') = S (length (sockets c)) /\
    sockets c' !! length (sockets c) =
      Some {| ws_url := target; readyState := CONNECTING; ws_sent := [] |} /\
    (forall sid ws', socket c = Some sid -> sockets c' !! sid = Some ws' ->
       closing_or_closed ws'))).
Proof.
  intros Hreach target c'. subst c'. unfold connect. fold target.
  destruct (reachable_conn_inv TrackerClient c Hreach) as [Hinv _].
  destruct (isConnected (set_url (Some target) c) && _) eqn:Hsame.
  - simpl. repeat split; try reflexivity. left.
    apply andb_true_iff in Hsame as [Hc Hu].
    split; [exact Hc|]. split; [|reflexivity].
    destruct (isConnected_lookup _ Hc) as (sid & ws & Hs & Hl & _).
    simpl in Hs, Hl, Hu. rewrite Hs in Hu. unfold socket_url_is in Hu.
    simpl in Hu. rewrite Hl in Hu. apply bool_decide_eq_true in Hu.
    injection Hu as Hu. eauto 6.
  - assert (Hurl : url (close_if_present (set_url (Some target) c)) = Some target).
    { open_client c. destruct c_socket; reflexivity. }
    rewrite Hurl.
    destruct (replaced_socket (set_url (Some target) c) target)
      as (Hs & Hss & Hlen & Hu & Hh & Ht & He & _ & Htm).
    destruct (connection (Some target) (close_if_present (set_url (Some target) c)))
      as [sock c3] eqn:Hconn.
    simpl in *. repeat split; try assumption; try apply Htm.
    right. split; [exact Hs|]. split; [exact Hlen|]. split.
    + rewrite Hss. apply list_lookup_middle.
      unfold close_if_present. simpl. destruct (socket c); simpl;
        rewrite ?length_alter; reflexivity.
    + intros sid ws' Hc Hl. rewrite Hss in Hl.
      apply lookup_snoc_Some in Hl as [[_ Hl]|[Hsid _]].
      * eapply (closed_current_after_close (set_url (Some target) c));
          eassumption.
      * exfalso. destruct (Hinv sid Hc) as (ws & Hws & _).
        apply lookup_lt_Some in Hws. revert Hsid.
        unfold close_if_present. simpl. rewrite Hc. simpl.
        rewrite length_alter. lia.
Qed.

Lemma connect_opens_target_witness :
  let c := sample_run [Connect "/app"; Host (SocketOpen 0)] in
  let target := host c +:+ "/" +:+ "/other" in
  let c' := snd (connect "/other" c) in
  fst (connect "/other" c) = true /\
  url c' = Some target /\
  host c' = host c /\ trackers c' = trackers c /\ emitted c' = emitted c /\
  same_timers c c' /\
  ((isConnected c = true /\
    (exists sid ws, socket c = Some sid /\ sockets c !! sid = Some ws /\
                    ws_url ws = target) /\
    c' = set_url (Some target) c)
   \/
   (socket c' = Some (length (sockets c)) /\
    length (sockets c') = S (length (sockets c)) /\
    sockets c' !! length (sockets c) =
      Some {| ws_url := target; readyState := CONNECTING; ws_sent := [] |} /\
    (forall sid ws', socket c = Some sid -> sockets c' !! sid = Some ws' ->
       closing_or_closed ws'))).
Proof.
  apply (connect_opens_target sample_TrackerClient "/other").
  apply reachable_sample_run.
Defined.

Lemma reconnect_refused c :
  url c = None \/
  (exists sid, socket c = Some sid /\ readyState_is CONNECTING sid c = true) ->
  reconnect c = (false, c).
Proof.
  unfold reconnect. intros [Hu|(sid & Hs & Hr)].
  - rewrite Hu. reflexivity.
  - rewrite Hs, Hr, orb_true_r. reflexivity.
Qed.

Lemma reconnect_accepted c u :
  url c = Some u ->
  (forall sid, socket c = Some sid -> readyState_is CONNECTING sid c = false) ->
  reconnect c =
  (true, set_socket (fst (connection (Some u) (close_if_present c)))
                    (snd (connection (Some u) (close_if_present c)))).
Proof.
  intros Hu Hnc. unfold reconnect. rewrite Hu. simpl.
  assert (Hskip : match socket c with
                  | Some sid => readyState_is CONNECTING sid c
                  | None => false
                  end = false).
  { destruct (socket c) as [sid|]; [apply Hnc|]; reflexivity. }
  rewrite Hskip.
  assert (Hurl : url (close_if_present c) = Some u).
  { rewrite <- Hu. unfold close_if_present. destruct (socket c); reflexivity. }
  rewrite Hurl. reflexivity.
Qed.

(** What a reconnection that goes ahead leaves behind. *)
Lemma reconnect_accepted_state c u :
  socket_inv c ->
  url c = Some u ->
  (forall sid, socket c = Some sid -> readyState_is CONNECTING sid c = false) ->
  let c' := snd (reconnect c) in
  fst (reconnect c) = true /\
  socket c' = Some (length (sockets c)) /\
  length (sockets c') = S (length (sockets c)) /\
  sockets c' !! length (sockets c) =
    Some {| ws_url := u; readyState := CONNECTING; ws_sent := [] |} /\
  (forall sid ws', socket c = Some sid -> sockets c' !! sid = Some ws' ->
     closing_or_closed ws') /\
  url c' = Some u /\ trackers c' = trackers c /\ emitted c' = emitted c /\
  same_timers c c'.
Proof.
  intros Hinv Hu Hnc c'. subst c'. rewrite (reconnect_accepted c u Hu Hnc).
  destruct (replaced_socket c u)
    as (Hs & Hss & Hlen & Hu' & _ & Ht & He & _ & Htm).
  simpl in *. rewrite Hu in Hu'.
  assert (Hl : length (sockets (close_if_present c)) = length (sockets c)).
  { unfold close_if_present. destruct (socket c); simpl;
      rewrite ?length_alter; reflexivity. }
  repeat split; try assumption; try apply Htm.
  - apply list_lookup_middle. symmetry. exact Hl.
  - intros sid ws' Hc Hlk.
    apply lookup_snoc_Some in Hlk as [[_ Hlk]|[Hsid _]].
    + eapply closed_current_after_close; eassumption.
    + exfalso. destruct (Hinv sid Hc) as (ws & Hws & _).
      apply lookup_lt_Some in Hws. lia.
Qed.

(** X3: [reconnect()] returns [false], and changes nothing, exactly when no
    url is stored or the current socket is still connecting.  Otherwise it
    returns [true]: the socket that was current is left closing or closed
    and one new socket, CONNECTING and for the stored url, becomes the
    current one; trackers, emitted events and the timer are untouched. *)
Theorem reconnect_outcome {Store Params : Type}
  (TrackerClient : Store -> string -> Params -> Tracker) c :
  reachable TrackerClient c ->
  let refused :=
    url c = None \/
    exists sid, socket c = Some sid /\ readyState_is CONNECTING sid c = true in
  let c' := snd (reconnect c) in
  (fst (reconnect c) = false <-> refused) /\
  (refused -> c' = c) /\
  (fst (reconnect c) = true ->
   exists u,
     url c = Some u /\ url c' = Some u /\
     socket c' = Some (length (sockets c)) /\
     length (sockets c') = S (length (sockets c)) /\
     sockets c' !! length (sockets c) =
       Some {| ws_url := u; readyState := CONNECTING; ws_sent := [] |} /\
     (forall sid ws', socket c = Some sid -> sockets c' !! sid = Some ws' ->
        closing_or_closed ws') /\
     trackers c' = trackers c /\ emitted c' = emitted c /\ same_timers c c').
Proof.
  intros Hreach refused c'.
  destruct (reachable_conn_inv TrackerClient c Hreach) as [Hinv _].
  assert (Hdec : refused \/
    exists u, url c = Some u /\
      forall sid, socket c = Some sid -> readyState_is CONNECTING sid c = false).
  { unfold refused. destruct (url c) as [u|] eqn:Hu; [|auto].
    destruct (socket c) as [sid|] eqn:Hs.
    - destruct (readyState_is CONNECTING sid c) eqn:Hr.
      + left. right. eauto.
      + right. exists u. split; [reflexivity|]. intros ? [= <-]. exact Hr.
    - right. exists u. split; [reflexivity|]. discriminate. }
  destruct Hdec as [Href|(u & Hu & Hnc)].
  - subst c'. rewrite (reconnect_refused c Href). simpl.
    repeat split; auto. discriminate.
  - destruct (reconnect_accepted_state c u Hinv Hu Hnc)
      as (Hr & Hs & Hlen & Hnew & Hold & Hu' & Ht & He & Htm).
    fold c' in Hs, Hlen, Hnew, Hold, Hu', Ht, He, Htm.
    assert (Hnot : ~ refused).
    { unfold refused. intros [Hn|(sid & Hs' & Hr')]; [congruence|].
      rewrite (Hnc sid Hs') in Hr'. discriminate. }
    repeat split.
    + rewrite Hr. discriminate.
    + intros Href. contradiction.
    + intros Href. contradiction.
    + intros _. exists u. repeat split; assumption || apply Htm.
Qed.

Lemma reconnect_outcome_witness :
  let c := sample_run [Connect "/app"; Host (SocketOpen 0)] in
  let refused :=
    url c = None \/
    exists sid, socket c = Some sid /\ readyState_is CONNECTING sid c = true in
  let c' := snd (reconnect c) in
  (fst (reconnect c) = false <-> refused) /\
  (refused -> c' = c) /\
  (fst (reconnect c) = true ->
   exists u,
     url c = Some u /\ url c' = Some u /\
     socket c' = Some (length (sockets c)) /\
     length (sockets c') = S (length (sockets c)) /\
     sockets c' !! length (sockets c) =
       Some {| ws_url := u; readyState := CONNECTING; ws_sent := [] |} /\
     (forall sid ws', socket c = Some sid -> sockets c' !! sid = Some ws' ->
        closing_or_closed ws') /\
     trackers c' = trackers c /\ emitted c' = emitted c /\ same_timers c c').
Proof.
  apply (reconnect_outcome sample_TrackerClient).
  apply reachable_sample_run.
Defined.



(** *** The retry cycle *)

(** X5: automatic reconnection.  A socket that closes with a code other
    than 1000, 1005 and 4001 while it is the current socket, or while there
    is no current socket (after [close()]), and while a url is stored, arms
    the timer; when the timer fires one new socket is constructed for the
    stored url, CONNECTING, and becomes the current socket, and no timer is
    pending any more. *)
Theorem retry_timer_reconnects {Store Params : Type}
  (TrackerClient : Store -> string -> Params -> Tracker) c sid ws u code :
  reachable TrackerClient c ->
  sockets c !! sid = Some ws ->
  readyState ws <> CLOSED ->
  socket c = Some sid \/ socket c = None ->
  url c = Some u ->
  code <> 1000 -> code <> 1005 -> code <> 4001 ->
  exists handle,
    let c1 := deliver (SocketClose sid code) c in
    let c2 := deliver (TimerFired handle) c1 in
    reconnectTimerHandle c1 = Some handle /\
    timers c1 = [(handle, RECONNECT_INTERVAL)] /\
    sockets c1 = alter (with_readyState CLOSED) sid (sockets c) /\
    socket c2 = Some (length (sockets c)) /\
    length (sockets c2) = S (length (sockets c)) /\
    sockets c2 !! length (sockets c) =
      Some {| ws_url := u; readyState := CONNECTING; ws_sent := [] |} /\
    url c2 = Some u /\
    reconnectTimerHandle c2 = None /\ timers c2 = [].
Proof.
  intros Hreach Hl Hr Hcur Hu H1 H2 H3.
  set (cc := set_readyState sid CLOSED c).
  set (c1 := deliver (SocketClose sid code) c).
  assert (Hc1 : c1 = sock_onclose code cc).
  { unfold c1. simpl. rewrite Hl.
    rewrite bool_decide_eq_false_2 by assumption. reflexivity. }
  assert (Hno : socket_not_open cc = true).
  { destruct Hcur as [Hs|Hs].
    - apply socket_not_open_closed_current, Hs.
    - unfold socket_not_open. simpl. rewrite Hs. reflexivity. }
  assert (Hinv1 : timer_inv c1).
  { unfold c1. apply timer_inv_deliver.
    apply (reachable_timer_inv TrackerClient), Hreach. }
  destruct (sock_onclose_conn code cc) as (Hs1 & Hu1 & Hss1).
  rewrite <- Hc1 in Hs1, Hu1, Hss1. simpl in Hs1, Hu1, Hss1.
  destruct (setupReconnection_armed RECONNECT_INTERVAL cc) as [handle Hh].
  assert (Hh1 : reconnectTimerHandle c1 = Some handle).
  { rewrite Hc1, sock_onclose_not_open, retry_code_dec by assumption.
    exact Hh. }
  assert (Ht1 : timers c1 = [(handle, RECONNECT_INTERVAL)]).
  { unfold timer_inv in Hinv1. rewrite Hh1 in Hinv1. exact Hinv1. }
  assert (Hp : pending handle c1 = true).
  { unfold pending. rewrite Ht1. simpl. rewrite Nat.eqb_refl. reflexivity. }
  exists handle. cbv zeta. fold c1.
  split; [exact Hh1|]. split; [exact Ht1|]. split; [exact Hss1|].
  set (c1' := set_handle None (clearTimeout handle c1)).
  assert (Hc2 : deliver (TimerFired handle) c1 = snd (reconnect c1')).
  { simpl. rewrite Hp. reflexivity. }
  rewrite Hc2.
  assert (Hinv' : socket_inv c1').
  { destruct (conn_inv_deliver (SocketClose sid code) c
                (reachable_conn_inv TrackerClient c Hreach)) as [Hi _].
    exact Hi. }
  assert (Hnc : forall s, socket c1' = Some s ->
                  readyState_is CONNECTING s c1' = false).
  { intros s. unfold c1'. simpl. rewrite Hs1.
    destruct Hcur as [Hs|Hs]; rewrite Hs; [|discriminate].
    intros [= <-]. unfold readyState_is. simpl. rewrite Hss1.
    rewrite list_lookup_alter_eq, Hl. reflexivity. }
  assert (Hu' : url c1' = Some u) by (unfold c1'; simpl; congruence).
  destruct (reconnect_accepted_state c1' u Hinv' Hu' Hnc)
    as (_ & Hs2 & Hlen2 & Hnew2 & _ & Hu2 & _ & _ & Hh2 & Ht2).
  assert (Hlen : length (sockets c1') = length (sockets c)).
  { unfold c1'. simpl. rewrite Hss1. apply length_alter. }
  rewrite Hlen in Hs2, Hlen2, Hnew2.
  repeat split; try assumption.
  - rewrite Ht2. unfold c1'. simpl. rewrite Ht1. simpl.
    rewrite Nat.eqb_refl. reflexivity.
Qed.

Lemma retry_timer_reconnects_witness :
  (let c := sample_run [Connect "/app"; Host (SocketOpen 0)] in
   exists handle,
     let c1 := deliver (SocketClose 0 1006) c in
     let c2 := deliver (TimerFired handle) c1 in
     reconnectTimerHandle c1 = Some handle /\
     timers c1 = [(handle, RECONNECT_INTERVAL)] /\
     sockets c1 = alter (with_readyState CLOSED) 0%nat (sockets c) /\
     socket c2 = Some (length (sockets c)) /\
     length (sockets c2) = S (length (sockets c)) /\
     sockets c2 !! length (sockets c) =
       Some {| ws_url := "ws://host//app"; readyState := CONNECTING;
               ws_sent := [] |} /\
     url c2 = Some "ws://host//app" /\
     reconnectTimerHandle c2 = None /\ timers c2 = []) /\
  (let c := sample_run [Connect "/app"; Host (SocketOpen 0); Close] in
   exists handle,
     let c1 := deliver (SocketClose 0 1006) c in
     let c2 := deliver (TimerFired handle) c1 in
     reconnectTimerHandle c1 = Some handle /\
     timers c1 = [(handle, RECONNECT_INTERVAL)] /\
     sockets c1 = alter (with_readyState CLOSED) 0%nat (sockets c) /\
     socket c2 = Some (length (sockets c)) /\
     length (sockets c2) = S (length (sockets c)) /\
     sockets c2 !! length (sockets c) =
       Some {| ws_url := "ws://host//app"; readyState := CONNECTING;
               ws_sent := [] |} /\
     url c2 = Some "ws://host//app" /\
     reconnectTimerHandle c2 = None /\ timers c2 = []).
Proof.
  split.
  - eapply (retry_timer_reconnects sample_TrackerClient
              (sample_run [Connect "/app"; Host (SocketOpen 0)]) 0%nat).
    + apply reachable_sample_run.
    + reflexivity.
    + simpl. discriminate.
    + left. reflexivity.
    + reflexivity.
    + lia.
    + lia.
    + lia.
  - eapply (retry_timer_reconnects sample_TrackerClient
              (sample_run [Connect "/app"; Host (SocketOpen 0); Close]) 0%nat).
    + apply reachable_sample_run.
    + reflexivity.
    + simpl. discriminate.
    + right. reflexivity.
    + reflexivity.
    + lia.
    + lia.
    + lia.
Defined.

(** X6: a reconnect timer that fires while no url is stored, or while the
    current socket is still connecting, is used up without effect: no
    socket is closed or constructed, and no timer is pending afterwards. *)
Theorem retry_timer_dropped {Store Params : Type}
  (TrackerClient : Store -> string -> Params -> Tracker) c handle :
  reachable TrackerClient c ->
  pending handle c = true ->
  url c = None \/
  (exists sid, socket c = Some sid /\ readyState_is CONNECTING sid c = true) ->
  let c' := deliver (TimerFired handle) c in
  c' = set_handle None (clearTimeout handle c) /\
  sockets c' = sockets c /\ socket c' = socket c /\ url c' = url c /\
  trackers c' = trackers c /\ emitted c' = emitted c /\
  reconnectTimerHandle c' = None /\ timers c' = [].
Proof.
  intros Hreach Hp Href c'.
  pose proof (reachable_timer_inv TrackerClient c Hreach) as Hinv.
  destruct (timer_fired_clears handle c Hinv Hp) as (_ & Hh & Ht).
  assert (Hc' : c' = set_handle None (clearTimeout handle c)).
  { unfold c'. simpl. rewrite Hp. unfold reconnect_timer_callback.
    rewrite reconnect_refused; [reflexivity|]. exact Href. }
  assert (Hc'' : c' = reconnect_timer_callback (clearTimeout handle c)).
  { unfold c'. simpl. rewrite Hp. reflexivity. }
  split; [exact Hc'|].
  rewrite <- Hc'' in Hh, Ht.
  rewrite Hc' in *. repeat split; assumption.
Qed.

Lemma retry_timer_dropped_witness :
  let c := sample_run [Connect "/app"; Host (SocketClose 0 1006); Reconnect] in
  let c' := deliver (TimerFired 1) c in
  c' = set_handle None (clearTimeout 1 c) /\
  sockets c' = sockets c /\ socket c' = socket c /\ url c' = url c /\
  trackers c' = trackers c /\ emitted c' = emitted c /\
  reconnectTimerHandle c' = None /\ timers c' = [].
Proof.
  apply (retry_timer_dropped sample_TrackerClient).
  - apply reachable_sample_run.
  - reflexivity.
  - right. exists 1%nat. split; reflexivity.
Defined.

(** *** Routing of decoded events *)

Lemma find_ref_Some {A : Type} (p : A -> bool) (l : list A) i :
  find_ref p l = Some i ->
  (exists x, l !! i = Some x /\ p x = true) /\
  (forall j y, (j < i)%nat -> l !! j = Some y -> p y = false).
Proof.
  revert i. induction l as [|x l IH]; intros i; simpl; [discriminate|].
  destruct (p x) eqn:Hx.
  - intros [= <-]. split; [eauto|]. intros j y Hj. lia.
  - destruct (find_ref p l) as [k|]; simpl; [|discriminate].
    intros [= <-]. destruct (IH k eq_refl) as [Hk Hlt]. split; [exact Hk|].
    intros [|j] y Hj; simpl.
    + intros [= <-]. exact Hx.
    + apply Hlt. lia.
Qed.

Lemma find_ref_None {A : Type} (p : A -> bool) (l : list A) :
  find_ref p l = None -> forall x, x ∈ l -> p x = false.
Proof.
  induction l as [|y l IH]; simpl; intros Hf x Hx.
  - inversion Hx.
  - destruct (p y) eqn:Hy; [discriminate|].
    destruct (find_ref p l); [discriminate|].
    inversion Hx; subst; auto.
Qed.

Lemma sock_onmessage_route ev id call now c :
  ClientAux.event_route ev = Some (id, call) ->
  sock_onmessage ev now c = forward id call c.
Proof. destruct ev; simpl; intros [= <- <-]; reflexivity. Qed.

(** X7: a decoded event other than a timestamp request goes to the first
    tracker, in registration order, whose [group] is the identifier the
    event addresses: that tracker receives the one method call of the
    event's kind and nothing else in the client changes.  When no tracker
    has that [group] the event is dropped and nothing changes. *)
Theorem routed_to_first_match ev id call now c :
  ClientAux.event_route ev = Some (id, call) ->
  match findTracker id c with
  | Some i =>
      exists t,
        trackers c !! i = Some t /\ group t = Some id /\
        (forall j t', (j < i)%nat -> trackers c !! j = Some t' ->
                      group t' <> Some id) /\
        sock_onmessage ev now c
          = set_trackers (<[i := receive call t]> (trackers c)) c
  | None =>
      (forall t, t ∈ trackers c -> group t <> Some id) /\
      sock_onmessage ev now c = c
  end.
Proof.
  intros Hroute. rewrite (sock_onmessage_route ev id call now c Hroute).
  unfold forward, findTracker.
  destruct (find_ref _ (trackers c)) as [i|] eqn:Hf.
  - destruct (find_ref_Some _ _ _ Hf) as [(t & Hl & Hp) Hfirst].
    exists t. apply bool_decide_eq_true in Hp.
    repeat split; try assumption.
    + intros j t' Hj Hl'. specialize (Hfirst j t' Hj Hl').
      apply bool_decide_eq_false in Hfirst. exact Hfirst.
    + unfold invoke. erewrite list_alter_lookup_insert by eassumption.
      reflexivity.
  - split; [|reflexivity]. intros t Ht.
    pose proof (find_ref_None _ _ Hf t Ht) as Hp.
    apply bool_decide_eq_false in Hp. exact Hp.
Qed.

Lemma routed_to_first_match_witness :
  let c := sample_run [CreateTracker "room" tt tt; CreateTracker "feed" tt tt] in
  match findTracker "feed" c with
  | Some i =>
      exists t,
        trackers c !! i = Some t /\ group t = Some "feed" /\
        (forall j t', (j < i)%nat -> trackers c !! j = Some t' ->
                      group t' <> Some "feed") /\
        sock_onmessage (TrackerAction "feed" "{}" 3) 0 c
          = set_trackers (<[i := receive (onAction "{}" 3) t]> (trackers c)) c
  | None =>
      (forall t, t ∈ trackers c -> group t <> Some "feed") /\
      sock_onmessage (TrackerAction "feed" "{}" 3) 0 c = c
  end.
Proof.
  apply (routed_to_first_match (TrackerAction "feed" "{}" 3)).
  reflexivity.
Defined.

(** *** The registry *)

Lemma map_trackerId_receive call l :
  map trackerId (map (receive call) l) = map trackerId l.
Proof. induction l as [|t l IH]; simpl; [reflexivity|]. rewrite IH. reflexivity. Qed.

Lemma map_trackerId_alter call i l :
  map trackerId (alter (receive call) i l) = map trackerId l.
Proof.
  revert i. induction l as [|t l IH]; intros [|i]; simpl; try reflexivity.
  f_equal. exact (IH i).
Qed.

Lemma map_delete {A B : Type} (f : A -> B) i (l : list A) :
  map f (delete i l) = delete i (map f l).
Proof.
  revert i. induction l as [|x l IH]; intros [|i]; simpl; try reflexivity.
  f_equal. exact (IH i).
Qed.

Lemma ids_forward id call c :
  map trackerId (trackers (forward id call c)) = map trackerId (trackers c).
Proof.
  unfold forward. destruct (findTracker id c); [|reflexivity].
  simpl. apply map_trackerId_alter.
Qed.

Lemma trackers_send data c : trackers (send data c) = trackers c.
Proof.
  unfold send. destruct (negb _); [reflexivity|].
  destruct (socket c); reflexivity.
Qed.

Lemma trackers_reconnect c : trackers (snd (reconnect c)) = trackers c.
Proof.
  unfold reconnect. destruct (_ || _); [reflexivity|].
  open_client c. destruct c_socket, c_url; reflexivity.
Qed.

Lemma trackers_connect path c : trackers (snd (connect path c)) = trackers c.
Proof.
  unfold connect. destruct (_ && _); [reflexivity|].
  open_client c. destruct c_socket; reflexivity.
Qed.

Lemma ids_sock_onclose code c :
  map trackerId (trackers (sock_onclose code c)) = map trackerId (trackers c).
Proof.
  destruct (socket_not_open c) eqn:Hn.
  - rewrite sock_onclose_not_open by assumption. simpl.
    rewrite map_trackerId_receive.
    destruct (_ && _); [|reflexivity].
    unfold setupReconnection. destruct (reconnectTimerHandle c); reflexivity.
  - rewrite sock_onclose_open by assumption. reflexivity.
Qed.

Lemma ids_deliver e c :
  map trackerId (trackers (deliver e c)) = map trackerId (trackers c).
Proof.
  destruct e as [sid|sid m|sid code|sid ev now|handle]; simpl.
  - destruct (readyState_is CONNECTING sid c); [|reflexivity].
    unfold sock_onopen. simpl. rewrite map_trackerId_receive.
    unfold clearRetry. simpl. destruct (reconnectTimerHandle c); reflexivity.
  - destruct (sockets c !! sid); reflexivity.
  - destruct (sockets c !! sid); [|reflexivity].
    destruct (bool_decide _); [reflexivity|].
    rewrite ids_sock_onclose. reflexivity.
  - destruct (_ || _); [|reflexivity].
    destruct ev; simpl;
      unfold onTrackerOpen, onTrackerClose, onTrackerAction,
        onTrackerApiResponse, onTrackerEmit, onTrackerTimestamp;
      first [apply ids_forward | rewrite trackers_send; reflexivity].
  - destruct (pending handle c); [|reflexivity].
    unfold reconnect_timer_callback. rewrite trackers_reconnect. reflexivity.
Qed.

Lemma createTracker_fresh {Store Params : Type}
  (TrackerClient : Store -> string -> Params -> Tracker)
  (id : string) (store : Store) (params : Params) c ref :
  fst (createTracker TrackerClient id store params c) = Return ref ->
  ref = length (trackers c) /\
  (forall t, t ∈ trackers c -> trackerId t <> Some id) /\
  snd (createTracker TrackerClient id store params c)
    = set_trackers (trackers c ++ [TrackerClient store id params]) c.
Proof.
  unfold createTracker.
  destruct (find_ref _ (trackers c)) eqn:Hf; simpl; [discriminate|].
  intros [= <-]. repeat split.
  intros t Ht. pose proof (find_ref_None _ _ Hf t Ht) as Hp.
  apply bool_decide_eq_false in Hp. exact Hp.
Qed.

Section Registry.
Context {Store Params : Type}.
Variable TrackerClient : Store -> string -> Params -> Tracker.
Hypothesis constructor_sets_trackerId :
  forall store id params, trackerId (TrackerClient store id params) = Some id.

Lemma ids_unique_step a c :
  NoDup (map trackerId (trackers c)) ->
  NoDup (map trackerId (trackers (step TrackerClient a c))).
Proof.
  intros Hnd. destruct a; simpl.
  - rewrite trackers_connect. exact Hnd.
  - unfold clearPath. simpl. destruct (socket c); exact Hnd.
  - rewrite trackers_reconnect. exact Hnd.
  - unfold close, clearRetry, close_if_present.
    destruct (socket c); simpl; destruct (reconnectTimerHandle c); exact Hnd.
  - rewrite trackers_send. exact Hnd.
  - destruct (fst (createTracker TrackerClient id store params c)) as [ref|e]
      eqn:Hr.
    + destruct (createTracker_fresh TrackerClient id store params c ref Hr)
        as (_ & Hfresh & ->).
      simpl. rewrite map_app. simpl. rewrite constructor_sets_trackerId.
      apply NoDup_app. split; [exact Hnd|]. split; [|apply NoDup_singleton].
      intros x Hx Hin. apply list_elem_of_singleton in Hin. subst x.
      apply list_elem_of_In, in_map_iff in Hx as (t & Ht & Hin).
      apply (Hfresh t); [apply list_elem_of_In, Hin|exact Ht].
    + unfold createTracker in *.
      destruct (find_ref _ (trackers c)); [exact Hnd|discriminate].
  - unfold tracker_dispose. destruct (0 <=? idx); [|exact Hnd].
    simpl. rewrite map_delete.
    eapply sublist_NoDup; [exact Hnd|apply sublist_delete].
  - rewrite ids_deliver. exact Hnd.
Qed.

Lemma reachable_ids_unique c :
  reachable TrackerClient c -> NoDup (map trackerId (trackers c)).
Proof.
  induction 1 as [endpoint c Hc|a c _ IH].
  - unfold createClient in Hc. destruct (getHost endpoint); [|discriminate].
    injection Hc as <-. apply NoDup_nil_2.
  - apply ids_unique_step, IH.
Qed.

End Registry.

(** X8: when the [TrackerClient] constructor stores the identifier it is
    given in the [trackerId] property, no two trackers in the registry of a
    client carry the same [trackerId], in any state the client can reach:
    two trackers at different positions have different identifiers. *)
Theorem registry_ids_unique {Store Params : Type}
  (TrackerClient : Store -> string -> Params -> Tracker) c :
  (forall store id params,
      trackerId (TrackerClient store id params) = Some id) ->
  reachable TrackerClient c ->
  NoDup (map trackerId (trackers c)) /\
  forall i j ti tj,
    trackers c !! i = Some ti -> trackers c !! j = Some tj ->
    trackerId ti = trackerId tj -> i = j.
Proof.
  intros Hctor Hreach.
  pose proof (reachable_ids_unique TrackerClient Hctor c Hreach) as Hnd.
  split; [exact Hnd|].
  intros i j ti tj Hi Hj Heq.
  eapply (NoDup_lookup (map trackerId (trackers c)) i j (trackerId ti));
    [exact Hnd| |].
  - change (map trackerId (trackers c)) with (trackerId <$> trackers c).
    rewrite list_lookup_fmap, Hi. reflexivity.
  - change (map trackerId (trackers c)) with (trackerId <$> trackers c).
    rewrite list_lookup_fmap, Hj, Heq. reflexivity.
Qed.

Lemma registry_ids_unique_witness :
  let c := sample_run [CreateTracker "room" tt tt; CreateTracker "feed" tt tt;
                       CreateTracker "room" tt tt; Dispose 0;
                       CreateTracker "room" tt tt] in
  NoDup (map trackerId (trackers c)) /\
  forall i j ti tj,
    trackers c !! i = Some ti -> trackers c !! j = Some tj ->
    trackerId ti = trackerId tj -> i = j.
Proof.
  apply (registry_ids_unique sample_TrackerClient).
  - reflexivity.
  - apply reachable_sample_run.
Defined.

(** X9: a [createTracker] that returns puts the constructed tracker at the
    end of the registry and leaves the trackers before it in place; the
    callback the tracker was given then removes exactly that tracker and
    restores the client.  The callback does nothing when [indexOf] reports
    that the tracker is gone.  If the constructor stores the identifier in
    [group] and no tracker was routed that identifier before, events for it
    are routed to the new tracker. *)
Theorem createTracker_then_dispose {Store Params : Type}
  (TrackerClient : Store -> string -> Params -> Tracker)
  (id : string) (store : Store) (params : Params) c ref :
  fst (createTracker TrackerClient id store params c) = Return ref ->
  let c1 := snd (createTracker TrackerClient id store params c) in
  ref = length (trackers c) /\
  trackers c1 = trackers c ++ [TrackerClient store id params] /\
  tracker_dispose (Z.of_nat ref) c1 = c /\
  tracker_dispose (-1) c1 = c1 /\
  (group (TrackerClient store id params) = Some id ->
   findTracker id c = None -> findTracker id c1 = Some ref).
Proof.
  intros Hr c1.
  destruct (createTracker_fresh TrackerClient id store params c ref Hr)
    as (-> & _ & Hc1).
  unfold c1. rewrite Hc1. simpl. repeat split.
  - unfold tracker_dispose.
    rewrite (proj2 (Z.leb_le 0 _)) by lia. simpl.
    rewrite Nat2Z.id.
    replace (trackers c ++ [TrackerClient store id params])
      with (trackers c ++ TrackerClient store id params :: []) by reflexivity.
    rewrite delete_middle, app_nil_r. destruct c; reflexivity.
  - intros Hg Hnone. unfold findTracker in *. simpl.
    revert Hnone. generalize (trackers c). intros l.
    induction l as [|t l IH]; simpl.
    + intros _. rewrite Hg. rewrite bool_decide_eq_true_2 by reflexivity.
      reflexivity.
    + destruct (bool_decide (group t = Some id)); [discriminate|].
      destruct (find_ref _ l) eqn:Hf; [discriminate|].
      intros _. rewrite IH by reflexivity. reflexivity.
Qed.

Lemma createTracker_then_dispose_witness :
  let c := sample_run [CreateTracker "room" tt tt] in
  let c1 := snd (createTracker sample_TrackerClient "feed" tt tt c) in
  1%nat = length (trackers c) /\
  trackers c1 = trackers c ++ [sample_TrackerClient tt "feed" tt] /\
  tracker_dispose (Z.of_nat 1) c1 = c /\
  tracker_dispose (-1) c1 = c1 /\
  (group (sample_TrackerClient tt "feed" tt) = Some "feed" ->
   findTracker "feed" c = None -> findTracker "feed" c1 = Some 1%nat).
Proof.
  apply (createTracker_then_dispose sample_TrackerClient "feed" tt tt
           (sample_run [CreateTracker "room" tt tt]) 1%nat).
  reflexivity.
Defined.

(** *** The life of a socket object *)

Import ClientAux.

Lemma socket_evolves_refl ws : socket_evolves ws ws.
Proof.
  split; [reflexivity|]. split; [lia|]. exists []. symmetry. apply app_nil_r.
Qed.


Lemma sockets_step_refl l : sockets_step l l.
Proof.
  split.
  - intros sid ws Hl. exists ws. split; [exact Hl|].
    split; [apply socket_evolves_refl|]. congruence.
  - intros sid ws' Hl Hn. congruence.
Qed.

Lemma sockets_step_alter f sid l :
  (forall ws, l !! sid = Some ws ->
     socket_evolves ws (f ws) /\
     (ws_sent (f ws) <> ws_sent ws -> readyState (f ws) = OPEN)) ->
  sockets_step l (alter f sid l).
Proof.
  intros Hf. split.
  - intros sid' ws Hl. destruct (decide (sid = sid')) as [->|Hne].
    + exists (f ws). rewrite list_lookup_alter_eq, Hl. simpl.
      split; [reflexivity|]. apply Hf, Hl.
    + exists ws. rewrite list_lookup_alter_ne by done.
      split; [exact Hl|]. split; [apply socket_evolves_refl|]. congruence.
  - intros sid' ws' Hl Hn. exfalso.
    destruct (decide (sid = sid')) as [->|Hne].
    + rewrite list_lookup_alter_eq, Hn in Hl. discriminate.
    + rewrite list_lookup_alter_ne in Hl by done. congruence.
Qed.

Lemma sockets_step_snoc l l1 u :
  sockets_step l l1 -> length l1 = length l ->
  sockets_step l
    (l1 ++ [{| ws_url := u; readyState := CONNECTING; ws_sent := [] |}]).
Proof.
  intros [Hold _] Hlen. split.
  - intros sid ws Hl. destruct (Hold sid ws Hl) as (ws' & Hl' & He).
    exists ws'. split; [|exact He]. apply lookup_app_l_Some, Hl'.
  - intros sid ws' Hl Hn. apply lookup_ge_None in Hn.
    apply lookup_snoc_Some in Hl as [[Hlt _]|[_ <-]]; [lia|].
    split; reflexivity.
Qed.

Lemma sockets_step_close_if_present c :
  sockets_step (sockets c) (sockets (close_if_present c)).
Proof.
  unfold close_if_present. destruct (socket c); [|apply sockets_step_refl].
  simpl. apply sockets_step_alter. intros ws _.
  destruct (readyState ws) eqn:E; simpl;
    (split; [|congruence]);
    solve [apply socket_evolves_refl
          | split; [reflexivity|]; split;
            [rewrite E; simpl; lia | exists []; symmetry; apply app_nil_r]].
Qed.

Lemma length_close_if_present c :
  length (sockets (close_if_present c)) = length (sockets c).
Proof.
  unfold close_if_present. destruct (socket c); simpl;
    rewrite ?length_alter; reflexivity.
Qed.

Lemma sockets_step_connect path c :
  sockets_step (sockets c) (sockets (snd (connect path c))).
Proof.
  unfold connect. destruct (_ && _); [apply sockets_step_refl|].
  set (c0 := set_url _ c).
  assert (Hurl : url (close_if_present c0) = url c0).
  { unfold close_if_present. destruct (socket c0); reflexivity. }
  rewrite Hurl. simpl.
  apply (sockets_step_snoc (sockets c0)).
  - apply sockets_step_close_if_present.
  - apply length_close_if_present.
Qed.

Lemma sockets_step_reconnect c :
  sockets_step (sockets c) (sockets (snd (reconnect c))).
Proof.
  unfold reconnect. destruct (_ || _); [apply sockets_step_refl|].
  assert (Hurl : url (close_if_present c) = url c).
  { unfold close_if_present. destruct (socket c); reflexivity. }
  rewrite Hurl. destruct (url c); simpl.
  - apply sockets_step_snoc.
    + apply sockets_step_close_if_present.
    + apply length_close_if_present.
  - apply sockets_step_close_if_present.
Qed.

Lemma sockets_step_send data c :
  sockets_step (sockets c) (sockets (send data c)).
Proof.
  unfold send. destruct (isConnected c) eqn:Hc; simpl;
    [|apply sockets_step_refl].
  destruct (isConnected_lookup c Hc) as (sid & ws & Hs & Hl & Hr).
  rewrite Hs. simpl. apply sockets_step_alter.
  intros ws0 Hl0. rewrite Hl in Hl0. injection Hl0 as <-. simpl.
  split; [|intros _; exact Hr].
  split; [reflexivity|]. split; [simpl; lia|]. simpl. eauto.
Qed.

Lemma sockets_step_sock_onmessage ev now c :
  sockets_step (sockets c) (sockets (sock_onmessage ev now c)).
Proof.
  destruct ev; simpl;
    unfold onTrackerOpen, onTrackerClose, onTrackerAction,
      onTrackerApiResponse, onTrackerEmit, onTrackerTimestamp;
    first
      [ apply sockets_step_send
      | match goal with
        | |- context [forward ?i ?k c] =>
            destruct (forward_conn i k c) as (_ & _ & ->)
        end; apply sockets_step_refl ].
Qed.

Lemma sockets_step_deliver e c :
  sockets_step (sockets c) (sockets (deliver e c)).
Proof.
  destruct e as [sid|sid m|sid code|sid ev now|handle]; simpl.
  - destruct (readyState_is CONNECTING sid c) eqn:Hr;
      [|apply sockets_step_refl].
    destruct (sock_onopen_conn (set_readyState sid OPEN c)) as (_ & _ & ->).
    simpl. apply sockets_step_alter. intros ws Hl.
    unfold readyState_is in Hr. rewrite Hl in Hr.
    apply bool_decide_eq_true in Hr. simpl.
    split; [|congruence].
    split; [reflexivity|]. split; [rewrite Hr; simpl; lia|].
    exists []. symmetry. apply app_nil_r.
  - destruct (sockets c !! sid); apply sockets_step_refl.
  - destruct (sockets c !! sid); [|apply sockets_step_refl].
    destruct (bool_decide _); [apply sockets_step_refl|].
    destruct (sock_onclose_conn code (set_readyState sid CLOSED c))
      as (_ & _ & ->).
    simpl. apply sockets_step_alter. intros ws Hl. simpl.
    split; [|congruence].
    split; [reflexivity|]. split; [destruct (readyState ws); simpl; lia|].
    exists []. symmetry. apply app_nil_r.
  - destruct (_ || _); [|apply sockets_step_refl].
    apply sockets_step_sock_onmessage.
  - destruct (pending handle c); [|apply sockets_step_refl].
    unfold reconnect_timer_callback.
    apply (sockets_step_reconnect (set_handle None (clearTimeout handle c))).
Qed.

Lemma sockets_step_step {Store Params : Type}
  (TrackerClient : Store -> string -> Params -> Tracker) a c :
  sockets_step (sockets c) (sockets (step TrackerClient a c)).
Proof.
  destruct a; simpl.
  - apply sockets_step_connect.
  - unfold clearPath. simpl.
    pose proof (sockets_step_close_if_present c) as H.
    unfold close_if_present in H. destruct (socket c); exact H.
  - apply sockets_step_reconnect.
  - unfold close, clearRetry.
    pose proof (sockets_step_close_if_present c) as H.
    destruct (reconnectTimerHandle _); exact H.
  - apply sockets_step_send.
  - unfold createTracker. destruct (find_ref _ _); apply sockets_step_refl.
  - unfold tracker_dispose. destruct (0 <=? idx); apply sockets_step_refl.
  - apply sockets_step_deliver.
Qed.



(** X11: frames are written to open sockets only: in every state a client
    can reach, a socket that is still connecting has nothing sent. *)
Theorem connecting_socket_nothing_sent {Store Params : Type}
  (TrackerClient : Store -> string -> Params -> Tracker) c sid ws :
  reachable TrackerClient c ->
  sockets c !! sid = Some ws ->
  readyState ws = CONNECTING ->
  ws_sent ws = [].
Proof.
  intros Hreach. revert sid ws.
  induction Hreach as [endpoint c Hc|a c _ IH]; intros sid ws Hl Hr.
  - unfold createClient in Hc. destruct (getHost endpoint); [|discriminate].
    injection Hc as <-. simpl in Hl. rewrite lookup_nil in Hl. discriminate.
  - destruct (sockets_step_step TrackerClient a c) as [Hold Hnew].
    destruct (sockets c !! sid) as [ws0|] eqn:Hl0.
    + destruct (Hold sid ws0 Hl0)
        as (ws' & Hl' & (_ & Hrank & more & Hm) & Hsent).
      rewrite Hl in Hl'. injection Hl' as <-.
      assert (Hr0 : readyState ws0 = CONNECTING).
      { rewrite Hr in Hrank. destruct (readyState ws0); simpl in Hrank;
          [reflexivity|lia|lia|lia]. }
      destruct more as [|frame more].
      * rewrite Hm, app_nil_r. apply (IH sid ws0 Hl0 Hr0).
      * assert (Hne : ws_sent ws <> ws_sent ws0).
        { intros E. rewrite E in Hm. apply (f_equal length) in Hm.
          rewrite length_app in Hm. simpl in Hm. lia. }
        specialize (Hsent Hne). congruence.
    + apply (Hnew sid ws Hl Hl0).
Qed.

Lemma connecting_socket_nothing_sent_witness :
  let c := sample_run [Connect "/app"; Send (Payload "early")] in
  exists ws,
    sockets c !! 0%nat = Some ws /\ readyState ws = CONNECTING /\
    ws_sent ws = [].
Proof.
  eexists. split; [reflexivity|]. split; [reflexivity|].
  eapply (connecting_socket_nothing_sent sample_TrackerClient
            (sample_run [Connect "/app"; Send (Payload "early")]) 0%nat).
  - apply reachable_sample_run.
  - reflexivity.
  - reflexivity.
Defined.

(** *** close *)

(** X12: [close()] forgets the current socket and keeps the url; it emits
    nothing and notifies no tracker itself, and frames sent afterwards are
    dropped.  When the socket it closed reports its close, whatever the
    code, every tracker receives [onDisconnect] once and one [disconnect]
    event with that code is emitted. *)
Theorem close_then_disconnect c sid ws code :
  socket c = Some sid ->
  sockets c !! sid = Some ws ->
  readyState ws <> CLOSED ->
  let c1 := close c in
  let c2 := deliver (SocketClose sid code) c1 in
  socket c1 = None /\ isConnected c1 = false /\ url c1 = url c /\
  trackers c1 = trackers c /\ emitted c1 = emitted c /\
  (forall data, send data c1 = c1) /\
  socket c2 = None /\
  emitted c2 = emitted c ++ [disconnect_event code] /\
  trackers c2 = map (receive onDisconnect) (trackers c).
Proof.
  intros Hs Hl Hr c1 c2.
  assert (Hs1 : socket c1 = None).
  { unfold c1, close, clearRetry. simpl.
    destruct (reconnectTimerHandle _); reflexivity. }
  assert (Hfields : url c1 = url c /\ trackers c1 = trackers c /\
                    emitted c1 = emitted c /\
                    sockets c1 = sockets (close_if_present c)).
  { unfold c1, close, clearRetry, close_if_present. rewrite Hs. simpl.
    destruct (reconnectTimerHandle c); repeat split; reflexivity. }
  destruct Hfields as (Hu1 & Ht1 & He1 & Hss1).
  assert (Hl1 : exists ws1, sockets c1 !! sid = Some ws1 /\
                            readyState ws1 <> CLOSED).
  { rewrite Hss1. unfold close_if_present. rewrite Hs. simpl.
    rewrite list_lookup_alter_eq, Hl. simpl. eexists. split; [reflexivity|].
    destruct (readyState ws) eqn:E; simpl; congruence. }
  destruct Hl1 as (ws1 & Hl1 & Hr1).
  assert (Hc2 : c2 = sock_onclose code (set_readyState sid CLOSED c1)).
  { unfold c2. simpl. rewrite Hl1.
    rewrite bool_decide_eq_false_2 by assumption. reflexivity. }
  rewrite sock_onclose_not_open in Hc2
    by (unfold socket_not_open; simpl; rewrite Hs1; reflexivity).
  repeat split; try assumption.
  - unfold isConnected. rewrite Hs1. reflexivity.
  - intros data. unfold send, isConnected. rewrite Hs1. reflexivity.
  - rewrite Hc2. simpl. destruct (_ && _); [|exact Hs1].
    unfold setupReconnection. simpl.
    destruct (reconnectTimerHandle c1); exact Hs1.
  - rewrite Hc2. simpl. rewrite <- He1. destruct (_ && _); [|reflexivity].
    unfold setupReconnection. simpl.
    destruct (reconnectTimerHandle c1); reflexivity.
  - rewrite Hc2. simpl. rewrite <- Ht1. destruct (_ && _); [|reflexivity].
    unfold setupReconnection. simpl.
    destruct (reconnectTimerHandle c1); reflexivity.
Qed.

Lemma close_then_disconnect_witness :
  let c := sample_run [CreateTracker "room" tt tt; Connect "/app";
                       Host (SocketOpen 0)] in
  let c1 := close c in
  let c2 := deliver (SocketClose 0 1005) c1 in
  socket c1 = None /\ isConnected c1 = false /\ url c1 = url c /\
  trackers c1 = trackers c /\ emitted c1 = emitted c /\
  (forall data, send data c1 = c1) /\
  socket c2 = None /\
  emitted c2 = emitted c ++ [disconnect_event 1005] /\
  trackers c2 = map (receive onDisconnect) (trackers c).
Proof.
  eapply (close_then_disconnect _ 0%nat).
  - reflexivity.
  - reflexivity.
  - simpl. discriminate.
Defined.

(** *** The endpoint *)

Lemma startsWith_split s p :
  startsWith s p = true -> s = p +:+ substr s (String.length p).
Proof.
  unfold startsWith. revert s. induction p as [|a p IH]; intros s; simpl.
  - destruct s; reflexivity.
  - destruct s as [|b s]; [discriminate|].
    simpl. destruct (Ascii.ascii_dec a b) as [->|]; [|intros; discriminate].
    intros H. rewrite (IH s H) at 1. reflexivity.
Qed.

Lemma getHost_ws rest : getHost ("ws:" +:+ rest) = Return ("ws:" +:+ rest).
Proof.
  unfold getHost. rewrite (startsWith_app "ws:" rest), orb_true_r.
  destruct rest; reflexivity.
Qed.

Lemma getHost_wss rest : getHost ("wss:" +:+ rest) = Return ("wss:" +:+ rest).
Proof.
  unfold getHost. rewrite (startsWith_app "wss:" rest).
  destruct rest; reflexivity.
Qed.

(** X13: whatever [getHost] returns starts with [ws:] or [wss:], and
    [getHost] returns it unchanged when it is given it again. *)
Theorem getHost_websocket_address endpoint h :
  getHost endpoint = Return h ->
  startsWith h "ws:" || startsWith h "wss:" = true /\
  getHost h = Return h.
Proof.
  assert (Hws : forall rest,
    startsWith ("ws:" +:+ rest) "ws:" || startsWith ("ws:" +:+ rest) "wss:"
      = true /\ getHost ("ws:" +:+ rest) = Return ("ws:" +:+ rest)).
  { intros rest. split; [|apply getHost_ws].
    rewrite (startsWith_app "ws:" rest). reflexivity. }
  assert (Hwss : forall rest,
    startsWith ("wss:" +:+ rest) "ws:" || startsWith ("wss:" +:+ rest) "wss:"
      = true /\ getHost ("wss:" +:+ rest) = Return ("wss:" +:+ rest)).
  { intros rest. split; [|apply getHost_wss].
    rewrite (startsWith_app "wss:" rest). apply orb_true_r. }
  unfold getHost at 1.
  destruct (startsWith endpoint "https:") eqn:H1; simpl.
  - intros [= <-]. pose proof (startsWith_split _ _ H1) as E.
    set (rest := substr endpoint _) in E. rewrite E.
    apply (Hwss rest).
  - destruct (startsWith endpoint "http:") eqn:H2; simpl.
    + intros [= <-]. pose proof (startsWith_split _ _ H2) as E.
      set (rest := substr endpoint _) in E. rewrite E.
      apply (Hws rest).
    + destruct (startsWith endpoint "wss:") eqn:H3; simpl.
      * intros [= <-]. pose proof (startsWith_split _ _ H3) as E.
        set (rest := substr endpoint _) in E. rewrite E.
        apply (Hwss rest).
      * destruct (startsWith endpoint "ws:") eqn:H4; [|discriminate].
        intros [= <-]. pose proof (startsWith_split _ _ H4) as E.
        set (rest := substr endpoint _) in E. rewrite E.
        apply (Hws rest).
Qed.

Lemma getHost_websocket_address_witness :
  startsWith "wss://example.com/api" "ws:"
    || startsWith "wss://example.com/api" "wss:" = true /\
  getHost "wss://example.com/api" = Return "wss://example.com/api".
Proof.
  apply (getHost_websocket_address "https://example.com/api").
  reflexivity.
Defined.

Lemma target_inv_same h c c' :
  host c' = host c -> same_conn c c' -> target_inv h c -> target_inv h c'.
Proof.
  intros Hh (_ & Hu & Hss) (H1 & H2 & H3). unfold target_inv.
  rewrite Hh, Hu, Hss. auto.
Qed.

Lemma target_inv_alter h f sid c :
  (forall ws, ws_url (f ws) = ws_url ws) ->
  target_inv h c -> target_inv h (set_sockets (alter f sid (sockets c)) c).
Proof.
  intros Hf (H1 & H2 & H3). repeat split; try assumption. simpl.
  apply Forall_alter; [exact H3|]. intros ws _ Hws. rewrite Hf. exact Hws.
Qed.

Lemma target_inv_close_if_present h c :
  target_inv h c -> target_inv h (close_if_present c).
Proof.
  intros H. unfold close_if_present. destruct (socket c); [|exact H].
  apply target_inv_alter; [|exact H].
  intros ws. destruct (readyState ws); reflexivity.
Qed.

Lemma target_inv_replaced h c u :
  target_inv h c -> targets h u -> url c = Some u ->
  target_inv h (set_socket (fst (connection (Some u) (close_if_present c)))
                           (snd (connection (Some u) (close_if_present c)))).
Proof.
  intros H Hu Hurl.
  destruct (target_inv_close_if_present h c H) as (_ & _ & H3).
  destruct H as (H1 & H2 & _).
  destruct (replaced_socket c u) as (_ & Hss & _ & Hu' & Hh & _).
  cbv zeta in Hss, Hu', Hh. unfold target_inv. rewrite Hh, Hu', Hss.
  repeat split; try assumption.
  apply Forall_app. split; [exact H3|]. repeat constructor. exact Hu.
Qed.

Lemma target_inv_connect h path c :
  target_inv h c -> target_inv h (snd (connect path c)).
Proof.
  intros H.
  assert (H0 : target_inv h (set_url (Some (host c +:+ "/" +:+ path)) c)).
  { destruct H as (H1 & H2 & H3). repeat split; try assumption.
    simpl. intros u [= <-]. exists path. rewrite H1. reflexivity. }
  unfold connect. destruct (_ && _); [exact H0|].
  set (c0 := set_url _ c) in *.
  assert (Hurl : url (close_if_present c0) = Some (host c +:+ "/" +:+ path)).
  { unfold close_if_present. destruct (socket c0); reflexivity. }
  rewrite Hurl.
  apply (target_inv_replaced h c0 _ H0); [|reflexivity].
  exists path. destruct H as (-> & _). reflexivity.
Qed.

Lemma target_inv_reconnect h c :
  target_inv h c -> target_inv h (snd (reconnect c)).
Proof.
  intros H. unfold reconnect. destruct (_ || _) eqn:Hskip; [exact H|].
  apply orb_false_iff in Hskip as [Hu _].
  destruct (url c) as [u|] eqn:Hurl; [|discriminate].
  assert (Hurl' : url (close_if_present c) = Some u).
  { unfold close_if_present. rewrite <- Hurl. destruct (socket c); reflexivity. }
  rewrite Hurl'.
  apply (target_inv_replaced h c u H); [|exact Hurl].
  destruct H as (_ & H2 & _). apply H2, Hurl.
Qed.

Lemma target_inv_send h data c :
  target_inv h c -> target_inv h (send data c).
Proof.
  intros H. unfold send. destruct (negb _); [exact H|].
  destruct (socket c); [|exact H].
  apply target_inv_alter; [reflexivity|exact H].
Qed.

Lemma host_sock_onopen c : host (sock_onopen c) = host c.
Proof.
  unfold sock_onopen, clearRetry. simpl.
  destruct (reconnectTimerHandle c); reflexivity.
Qed.

Lemma host_sock_onclose code c : host (sock_onclose code c) = host c.
Proof.
  destruct (socket_not_open c) eqn:Hn.
  - rewrite sock_onclose_not_open by assumption. simpl.
    destruct (_ && _); [|reflexivity].
    unfold setupReconnection. destruct (reconnectTimerHandle c); reflexivity.
  - rewrite sock_onclose_open by assumption. reflexivity.
Qed.

Lemma target_inv_deliver h e c :
  target_inv h c -> target_inv h (deliver e c).
Proof.
  intros H. destruct e as [sid|sid m|sid code|sid ev now|handle]; simpl.
  - destruct (readyState_is CONNECTING sid c); [|exact H].
    eapply target_inv_same;
      [apply host_sock_onopen|apply sock_onopen_conn|].
    apply target_inv_alter; [reflexivity|exact H].
  - destruct (sockets c !! sid); exact H.
  - destruct (sockets c !! sid); [|exact H].
    destruct (bool_decide _); [exact H|].
    eapply target_inv_same;
      [apply host_sock_onclose|apply sock_onclose_conn|].
    apply target_inv_alter; [reflexivity|exact H].
  - destruct (_ || _); [|exact H].
    destruct ev; simpl;
      unfold onTrackerOpen, onTrackerClose, onTrackerAction,
        onTrackerApiResponse, onTrackerEmit, onTrackerTimestamp;
      first
        [ apply target_inv_send, H
        | eapply target_inv_same; [|apply forward_conn|exact H];
          unfold forward; destruct (findTracker _ c); reflexivity ].
  - destruct (pending handle c); [|exact H].
    unfold reconnect_timer_callback. apply target_inv_reconnect. exact H.
Qed.

Lemma target_inv_step {Store Params : Type}
  (TrackerClient : Store -> string -> Params -> Tracker) h a c :
  target_inv h c -> target_inv h (step TrackerClient a c).
Proof.
  intros H. destruct a; simpl.
  - apply target_inv_connect, H.
  - pose proof (target_inv_close_if_present h c H) as (H1 & _ & H3).
    unfold clearPath, close_if_present in *. simpl.
    destruct (socket c); repeat split; try assumption; discriminate.
  - apply target_inv_reconnect, H.
  - pose proof (target_inv_close_if_present h c H) as H'.
    unfold close, clearRetry.
    destruct (reconnectTimerHandle _); exact H'.
  - apply target_inv_send, H.
  - unfold createTracker. destruct (find_ref _ _); exact H.
  - unfold tracker_dispose. destruct (0 <=? idx); exact H.
  - apply target_inv_deliver, H.
Qed.

Lemma target_inv_run {Store Params : Type}
  (TrackerClient : Store -> string -> Params -> Tracker) h acts c :
  target_inv h c -> target_inv h (run TrackerClient acts c).
Proof.
  revert c. induction acts as [|a acts IH]; intros c H; simpl; [exact H|].
  apply IH, target_inv_step, H.
Qed.

(** X14: the host of a client is what [getHost] made of the address the
    client was created with, for as long as the client lives; the stored
    url and the url of every socket the client ever constructs are that
    host, a slash and a path. *)
Theorem sockets_target_endpoint {Store Params : Type}
  (TrackerClient : Store -> string -> Params -> Tracker) endpoint c0 acts :
  createClient endpoint = Return c0 ->
  let c := run TrackerClient acts c0 in
  getHost endpoint = Return (host c) /\
  (forall u, url c = Some u -> exists path, u = host c +:+ "/" +:+ path) /\
  (forall sid ws, sockets c !! sid = Some ws ->
     exists path, ws_url ws = host c +:+ "/" +:+ path).
Proof.
  intros Hc c.
  unfold createClient in Hc. destruct (getHost endpoint) as [h|] eqn:Hh;
    [|discriminate].
  injection Hc as <-.
  assert (Hinv : target_inv h c).
  { unfold c. apply target_inv_run.
    repeat split; [discriminate|constructor]. }
  destruct Hinv as (H1 & H2 & H3). rewrite H1.
  split; [reflexivity|]. split; [exact H2|].
  intros sid ws Hl. rewrite Forall_lookup in H3. apply (H3 sid ws Hl).
Qed.

Lemma sockets_target_endpoint_witness :
  let c := run sample_TrackerClient
             [Connect "app"; Host (SocketClose 0 1006); Host (TimerFired 1);
              Connect "other"]
             (initial "wss://example.com") in
  getHost "https://example.com" = Return (host c) /\
  (forall u, url c = Some u -> exists path, u = host c +:+ "/" +:+ path) /\
  (forall sid ws, sockets c !! sid = Some ws ->
     exists path, ws_url ws = host c +:+ "/" +:+ path).
Proof.
  apply (sockets_target_endpoint sample_TrackerClient "https://example.com").
  reflexivity.
Defined.

End ClientMore.

(** ** Further properties of the chat API *)

Module ChatRoomFacts.
Import ChatRoom.

Lemma join_known room s user members :
  session_user s = Some user ->
  ROOMS s !! room = Some members ->
  join room s =
  (Return tt,
   {| ROOMS := <[room := members ++ [user]]> (ROOMS s);
      session_user := Some user;
      session_room := Some room;
      calls := calls s ++
        [of_join (Chat.channel_dispatch room (Chat.ADD_MEMBER user));
         of_join (Chat.subscribe room);
         of_join Chat.addCloseListener;
         of_join (Chat.dispatch (Chat.MEMBERS room (members ++ [user])))];
      console := console s ++
        ["JOIN " +:+ room +:+ " " +:+ Chat.name user +:+ "/" +:+ Chat.id user]
   |}).
Proof.
  intros Hu Hl. unfold join, Chat.join, to_chat. simpl. rewrite Hu.
  unfold Chat.getMembers, Chat.ROOMS_get. simpl. rewrite Hl. simpl.
  rewrite ?Hu. reflexivity.
Qed.

Lemma leave_known s user members :
  session_user s = Some user ->
  ROOMS s !! key (session_room s) = Some members ->
  leave s =
  (Return tt,
   {| ROOMS := <[key (session_room s) :=
                   filter (fun u => Chat.id u <> Chat.id user) members]>
                 (ROOMS s);
      session_user := Some user;
      session_room := session_room s;
      calls := calls s ++
        [channel_dispatch (session_room s) (REMOVE_MEMBER (Chat.id user));
         unsubscribe (session_room s)];
      console := console s |}).
Proof.
  intros Hu Hl. unfold leave. rewrite Hu.
  unfold Chat.ROOMS_get, to_chat. simpl. rewrite Hl. unfold called, set_ROOMS.
  simpl. rewrite ?Hu, <- app_assoc. reflexivity.
Qed.

Lemma filter_others (uid : string) (l : list Chat.User) :
  (forall u, u ∈ l -> Chat.id u <> uid) ->
  filter (fun u => Chat.id u <> uid) l = l.
Proof.
  induction l as [|x l IH]; intros H; [reflexivity|].
  rewrite filter_cons_True by (apply H; apply list_elem_of_here).
  rewrite IH; [reflexivity|].
  intros u Hu. apply H. apply list_elem_of_further, Hu.
Qed.

(** X15: [join] of a room of the table followed by [leave] puts the table
    back as it was, provided no other member of the room has the user's
    id; both calls return; the MEMBERS message sent to the joining user
    lists the user; and the session still holds the room after [leave]. *)
Theorem join_then_leave room s user members :
  session_user s = Some user ->
  ROOMS s !! room = Some members ->
  (forall u, u ∈ members -> Chat.id u <> Chat.id user) ->
  let s1 := snd (join room s) in
  let s2 := snd (leave s1) in
  fst (join room s) = Return tt /\
  fst (leave s1) = Return tt /\
  ROOMS s1 !! room = Some (members ++ [user]) /\
  ROOMS s2 = ROOMS s /\
  session_room s2 = Some room /\
  calls s2 = calls s ++
    [of_join (Chat.channel_dispatch room (Chat.ADD_MEMBER user));
     of_join (Chat.subscribe room);
     of_join Chat.addCloseListener;
     of_join (Chat.dispatch (Chat.MEMBERS room (members ++ [user])));
     channel_dispatch (Some room) (REMOVE_MEMBER (Chat.id user));
     unsubscribe (Some room)].
Proof.
  intros Hu Hl Hothers s1 s2. subst s2 s1.
  rewrite (join_known room s user members Hu Hl). simpl.
  rewrite (leave_known _ user (members ++ [user])); simpl;
    [|reflexivity|apply lookup_insert_eq].
  repeat split.
  - apply lookup_insert_eq.
  - rewrite insert_insert_eq, filter_app, (filter_others _ _ Hothers).
    rewrite filter_cons_False by (intros H; apply H; reflexivity).
    rewrite filter_nil, app_nil_r. apply insert_id, Hl.
  - rewrite <- app_assoc. reflexivity.
Qed.

Lemma join_then_leave_witness :
  let user := {| Chat.id := "7"; Chat.name := "ann" |} in
  let s := fresh_session user in
  let s1 := snd (join "python" s) in
  let s2 := snd (leave s1) in
  fst (join "python" s) = Return tt /\
  fst (leave s1) = Return tt /\
  ROOMS s1 !! "python" = Some ([] ++ [user]) /\
  ROOMS s2 = ROOMS s /\
  session_room s2 = Some "python" /\
  calls s2 = calls s ++
    [of_join (Chat.channel_dispatch "python" (Chat.ADD_MEMBER user));
     of_join (Chat.subscribe "python");
     of_join Chat.addCloseListener;
     of_join (Chat.dispatch (Chat.MEMBERS "python" ([] ++ [user])));
     channel_dispatch (Some "python") (REMOVE_MEMBER (Chat.id user));
     unsubscribe (Some "python")].
Proof.
  apply (join_then_leave "python"
           (fresh_session {| Chat.id := "7"; Chat.name := "ann" |})
           {| Chat.id := "7"; Chat.name := "ann" |} []).
  - reflexivity.
  - reflexivity.
  - intros u Hu. inversion Hu.
Defined.

(** X16: a [leave] that returns found the session's user and the member
    array of the session's room; afterwards that room holds the members
    whose id is not the user's, in their order (every entry with the
    user's id is gone), every other room is as it was, and the session
    still holds the room. *)
Theorem leave_removes_user s s' :
  leave s = (Return tt, s') ->
  exists user members,
    session_user s = Some user /\
    ROOMS s !! key (session_room s) = Some members /\
    ROOMS s' !! key (session_room s)
      = Some (filter (fun u => Chat.id u <> Chat.id user) members) /\
    (forall u, u ∈ filter (fun u => Chat.id u <> Chat.id user) members <->
               Chat.id u <> Chat.id user /\ u ∈ members) /\
    (forall r, r <> key (session_room s) -> ROOMS s' !! r = ROOMS s !! r) /\
    session_room s' = session_room s.
Proof.
  unfold leave. destruct (session_user s) as [user|] eqn:Hu; [|discriminate].
  unfold Chat.ROOMS_get, to_chat. simpl.
  destruct (ROOMS s !! key (session_room s)) as [members|] eqn:Hl.
  - intros [= <-]. exists user, members. simpl.
    split; [reflexivity|]. split; [reflexivity|].
    split; [apply lookup_insert_eq|].
    split; [intros u; rewrite list_elem_of_filter; reflexivity|].
    split; [|reflexivity].
    intros r Hr. apply lookup_insert_ne. congruence.
  - destruct (bool_decide _); discriminate.
Qed.

Lemma leave_removes_user_witness :
  let ann := {| Chat.id := "7"; Chat.name := "ann" |} in
  let s := snd (join "ruby" (snd (join "ruby" (fresh_session ann)))) in
  exists user members,
    session_user s = Some user /\
    ROOMS s !! key (session_room s) = Some members /\
    ROOMS (snd (leave s)) !! key (session_room s)
      = Some (filter (fun u => Chat.id u <> Chat.id user) members) /\
    (forall u, u ∈ filter (fun u => Chat.id u <> Chat.id user) members <->
               Chat.id u <> Chat.id user /\ u ∈ members) /\
    (forall r, r <> key (session_room s) ->
               ROOMS (snd (leave s)) !! r = ROOMS s !! r) /\
    session_room (snd (leave s)) = session_room s.
Proof.
  apply leave_removes_user. vm_compute. reflexivity.
Defined.



(** X18: [join] does not leave the room the session is in.  After joining
    one room of the table and then another the user is listed in both and
    the session holds the second; a [leave] then removes the user from the
    second room only, and the first room still lists the user. *)
Theorem join_second_room_keeps_first r1 r2 s user m1 m2 :
  session_user s = Some user ->
  r1 <> r2 ->
  ROOMS s !! r1 = Some m1 ->
  ROOMS s !! r2 = Some m2 ->
  let s2 := snd (join r2 (snd (join r1 s))) in
  let s3 := snd (leave s2) in
  fst (join r2 (snd (join r1 s))) = Return tt /\
  session_room s2 = Some r2 /\
  ROOMS s2 !! r1 = Some (m1 ++ [user]) /\
  ROOMS s2 !! r2 = Some (m2 ++ [user]) /\
  fst (leave s2) = Return tt /\
  ROOMS s3 !! r1 = Some (m1 ++ [user]) /\
  ROOMS s3 !! r2
    = Some (filter (fun u => Chat.id u <> Chat.id user) (m2 ++ [user])) /\
  user ∈ m1 ++ [user].
Proof.
  intros Hu Hne Hl1 Hl2 s2 s3. subst s3 s2.
  rewrite (join_known r1 s user m1 Hu Hl1). cbn [fst snd].
  rewrite (join_known r2 _ user m2);
    [|reflexivity|simpl; rewrite lookup_insert_ne by congruence; exact Hl2].
  cbn [fst snd].
  rewrite (leave_known _ user (m2 ++ [user]));
    [|reflexivity|simpl; apply lookup_insert_eq].
  simpl. repeat split.
  - rewrite lookup_insert_ne by congruence. apply lookup_insert_eq.
  - apply lookup_insert_eq.
  - rewrite lookup_insert_ne by congruence.
    rewrite lookup_insert_ne by congruence. apply lookup_insert_eq.
  - apply lookup_insert_eq.
  - apply elem_of_app. right. apply list_elem_of_here.
Qed.

Lemma join_second_room_keeps_first_witness :
  let ann := {| Chat.id := "7"; Chat.name := "ann" |} in
  let s := fresh_session ann in
  let s2 := snd (join "java" (snd (join "python" s))) in
  let s3 := snd (leave s2) in
  fst (join "java" (snd (join "python" s))) = Return tt /\
  session_room s2 = Some "java" /\
  ROOMS s2 !! "python" = Some ([] ++ [ann]) /\
  ROOMS s2 !! "java" = Some ([] ++ [ann]) /\
  fst (leave s2) = Return tt /\
  ROOMS s3 !! "python" = Some ([] ++ [ann]) /\
  ROOMS s3 !! "java"
    = Some (filter (fun u => Chat.id u <> Chat.id ann) ([] ++ [ann])) /\
  ann ∈ [] ++ [ann].
Proof.
  apply (join_second_room_keeps_first "python" "java"
           (fresh_session {| Chat.id := "7"; Chat.name := "ann" |})
           {| Chat.id := "7"; Chat.name := "ann" |} [] []).
  - reflexivity.
  - discriminate.
  - reflexivity.
  - reflexivity.
Defined.




End ChatRoomFacts.
